(** * tools/parse-reports.py: Gradle reports to GitHub annotations

    A shallow embedding of the script and the properties of its two scans.

    Python [str] values are modelled as [string]; a character is a code
    point below 256.  Printing is modelled as the list of the arguments of
    the successive [print] calls, exceptions as values of [exn], and the
    file system, the XML parser and [os.path.relpath] as the environment
    the script runs in. *)

From Stdlib Require Import String Ascii List Bool Arith Lia.
From stdpp Require Import base strings gmap.

Local Open Scope string_scope.
Local Open Scope list_scope.

(** ** Characters and strings *)

Definition LF : ascii := ascii_of_nat 10.
Definition TAB : ascii := ascii_of_nat 9.

Definition in_range (lo hi : nat) (c : ascii) : bool :=
  ((lo <=? nat_of_ascii c) && (nat_of_ascii c <=? hi))%nat.

(** [\s] of a [str] pattern, on code points below 256. *)
Definition is_space (c : ascii) : bool :=
  in_range 9 13 c || in_range 28 32 c
  || (nat_of_ascii c =? 133)%nat || (nat_of_ascii c =? 160)%nat.

(** [\d] of a [str] pattern, on code points below 256. *)
Definition is_digit (c : ascii) : bool := in_range 48 57 c.

(** [\w] of a [str] pattern, on code points below 256: alphanumeric
    ([str.isalnum]) or the underscore. *)
Definition is_word (c : ascii) : bool :=
  in_range 48 57 c || in_range 65 90 c || (nat_of_ascii c =? 95)%nat
  || in_range 97 122 c || (nat_of_ascii c =? 170)%nat || in_range 178 179 c
  || (nat_of_ascii c =? 181)%nat || in_range 185 186 c || in_range 188 190 c
  || in_range 192 214 c || in_range 216 246 c || in_range 248 255 c.

Definition one_of (s : string) (c : ascii) : bool :=
  existsb (Ascii.eqb c) (list_ascii_of_string s).

(** [s[:n]] *)
Fixpoint take_str (n : nat) (s : string) : string :=
  match n, s with
  | S n', String c s' => String c (take_str n' s')
  | _, _ => EmptyString
  end.

(** ** The fragment of [re] the script uses

    Every repetition in the script's patterns is over a single character
    class, so the matcher is structural: on the pattern, and on the text
    inside a repetition.  It is the backtracking matcher of [re]: a greedy
    repetition takes as many characters as it can and gives them back one
    at a time while the rest of the pattern fails. *)

Module Re.

Inductive regex : Type :=
| Eps
| Lit (c : ascii)               (* a literal character *)
| Cls (p : ascii -> bool)       (* a class: [\s], [\w], [[...]], [.] *)
| Star (p : ascii -> bool)      (* greedy [p*] *)
| Plus (p : ascii -> bool)      (* greedy [p+] *)
| Seq (r1 r2 : regex)
| Group (n : nat) (r : regex)   (* the [n]-th capturing group *)
| BoS                           (* [^] *)
| Bol                           (* [^] under [re.MULTILINE] *)
| Eol                           (* [$] under [re.MULTILINE] *)
| EoS.                          (* [\Z] *)

Infix "+>" := Seq (at level 60, right associativity).

(** A literal run of characters. *)
Fixpoint lit (s : string) : regex :=
  match s with
  | EmptyString => Eps
  | String c s' => Lit c +> lit s'
  end.

(** [.] without and with [re.DOTALL]. *)
Definition dot (c : ascii) : bool := negb (Ascii.eqb c LF).
Definition any (c : ascii) : bool := true.

(** Where the matcher stands: the character before the position (none at
    the start of the string), the text from the position on, the index. *)
Record cursor : Type := Cursor {
  prev : option ascii;
  rest : string;
  pos : nat
}.

Definition captures : Type := list (nat * string).

Definition outcome : Type := (cursor * captures)%type.

Definition cont : Type := cursor -> captures -> option outcome.

Definition at_line_start (cur : cursor) : bool :=
  match prev cur with
  | None => true
  | Some c => Ascii.eqb c LF
  end.

Definition at_line_end (cur : cursor) : bool :=
  match rest cur with
  | EmptyString => true
  | String c _ => Ascii.eqb c LF
  end.

Definition step1 (p : ascii -> bool) (k : cont) (cur : cursor)
    (caps : captures) : option outcome :=
  match rest cur with
  | String c s' =>
      if p c then k (Cursor (Some c) s' (S (pos cur))) caps else None
  | EmptyString => None
  end.

(** Greedy repetition of a class from the text [s] at index [i]: take the
    next character when it is in the class and try on; when that fails
    (or the character is not in the class) run the rest of the pattern
    here. *)
Fixpoint star (p : ascii -> bool) (k : cursor -> option outcome)
    (pv : option ascii) (s : string) (i : nat) : option outcome :=
  match s with
  | String c s' =>
      if p c then
        match star p k (Some c) s' (S i) with
        | Some o => Some o
        | None => k (Cursor pv s i)
        end
      else k (Cursor pv s i)
  | EmptyString => k (Cursor pv s i)
  end.

Definition star_at (p : ascii -> bool) (k : cont) (cur : cursor)
    (caps : captures) : option outcome :=
  star p (fun cur' => k cur' caps) (prev cur) (rest cur) (pos cur).

Fixpoint exec (r : regex) (k : cont) (cur : cursor) (caps : captures)
    : option outcome :=
  match r with
  | Eps => k cur caps
  | Lit c => step1 (Ascii.eqb c) k cur caps
  | Cls p => step1 p k cur caps
  | Star p => star_at p k cur caps
  | Plus p => step1 p (star_at p k) cur caps
  | Seq r1 r2 => exec r1 (exec r2 k) cur caps
  | Group n r' =>
      exec r'
        (fun cur' caps' =>
           k cur' ((n, take_str (pos cur' - pos cur) (rest cur)) :: caps'))
        cur caps
  | BoS => match prev cur with None => k cur caps | Some _ => None end
  | Bol => if at_line_start cur then k cur caps else None
  | Eol => if at_line_end cur then k cur caps else None
  | EoS => match rest cur with EmptyString => k cur caps | _ => None end
  end.

(** A match object: where the match starts and ends, and its groups. *)
Record Match : Type := MkMatch {
  m_start : nat;
  m_end : nat;
  m_text : string;
  m_groups : captures
}.

Fixpoint lookup_group (n : nat) (caps : captures) : option string :=
  match caps with
  | [] => None
  | (m, s) :: caps' => if Nat.eqb n m then Some s else lookup_group n caps'
  end.

(** [m[n]] for a group that took part in the match; every group of the
    script's patterns does. *)
Definition group (m : Match) (n : nat) : string :=
  match n with
  | O => m_text m
  | _ => match lookup_group n (m_groups m) with
         | Some s => s
         | None => EmptyString
         end
  end.

(** One attempt at the position of [cur]. *)
Definition match_at (r : regex) (cur : cursor) : option Match :=
  match exec r (fun cur' caps => Some (cur', caps)) cur [] with
  | Some (cur', caps) =>
      Some (MkMatch (pos cur) (pos cur')
              (take_str (pos cur' - pos cur) (rest cur)) caps)
  | None => None
  end.

Definition start_of (s : string) : cursor := Cursor None s 0.

(** [pattern.match(s)] *)
Definition match_ (r : regex) (s : string) : option Match :=
  match_at r (start_of s).

(** [pattern.fullmatch(s)] *)
Definition fullmatch (r : regex) (s : string) : option Match :=
  match_at (r +> EoS) (start_of s).

Fixpoint search_from (r : regex) (pv : option ascii) (s : string) (i : nat)
    : option Match :=
  match match_at r (Cursor pv s i) with
  | Some m => Some m
  | None =>
      match s with
      | String c s' => search_from r (Some c) s' (S i)
      | EmptyString => None
      end
  end.

(** [pattern.search(s)]: the match at the leftmost position that has
    one. *)
Definition search (r : regex) (s : string) : option Match :=
  search_from r None s 0.

(** The scan of [finditer] and [sub]: positions from left to right, the
    [skip] characters a match has just consumed passed over.  The
    patterns scanned by the script never match the empty string. *)
Fixpoint scan (r : regex) (pv : option ascii) (s : string) (i skip : nat)
    : list Match :=
  match skip with
  | S skip' =>
      match s with
      | String c s' => scan r (Some c) s' (S i) skip'
      | EmptyString => []
      end
  | O =>
      match match_at r (Cursor pv s i) with
      | Some m =>
          m :: match s with
               | String c s' =>
                   scan r (Some c) s' (S i) (pred (m_end m - m_start m))
               | EmptyString => []
               end
      | None =>
          match s with
          | String c s' => scan r (Some c) s' (S i) 0
          | EmptyString => []
          end
      end
  end.

(** [pattern.findall(s)] for a pattern with the two groups 1 and 2. *)
Definition findall2 (r : regex) (s : string) : list (string * string) :=
  map (fun m => (group m 1, group m 2)) (scan r None s 0 0).

(** [pattern.sub(repl, s)] *)
Fixpoint sub_from (r : regex) (repl : string) (pv : option ascii)
    (s : string) (i skip : nat) : string :=
  match skip with
  | S skip' =>
      match s with
      | String c s' => sub_from r repl (Some c) s' (S i) skip'
      | EmptyString => EmptyString
      end
  | O =>
      match match_at r (Cursor pv s i) with
      | Some m =>
          repl +:+ match s with
                   | String c s' =>
                       sub_from r repl (Some c) s' (S i)
                         (pred (m_end m - m_start m))
                   | EmptyString => EmptyString
                   end
      | None =>
          match s with
          | String c s' => String c (sub_from r repl (Some c) s' (S i) 0)
          | EmptyString => EmptyString
          end
      end
  end.

Definition sub (r : regex) (repl s : string) : string :=
  sub_from r repl None s 0 0.

End Re.

Import Re.

(** ** The script's patterns *)

(** [re.compile(r"^\s+(/[\w./-]+):(\d+):", re.MULTILINE)] *)
Definition LUA_ERROR_LOCATION : regex :=
  Bol +> Plus is_space
      +> Group 1 (Lit "/" +> Plus (fun c => is_word c || one_of "./-" c))
      +> Lit ":" +> Group 2 (Plus is_digit) +> Lit ":".

(** [re.compile(r"^java.lang.IllegalStateException: (/[\w./-]+):(\d+):")];
    the dots of the prefix are unescaped. *)
Definition JAVA_LUA_ERROR_LOCATION : regex :=
  BoS +> lit "java" +> Cls dot +> lit "lang" +> Cls dot
      +> lit "IllegalStateException: "
      +> Group 1 (Lit "/" +> Plus (fun c => is_word c || one_of "./-" c))
      +> Lit ":" +> Group 2 (Plus is_digit) +> Lit ":".

(** [re.compile(r"^\tat ([\w.]+)\.[\w]+\([\w.]+:(\d+)\)$", re.MULTILINE)] *)
Definition JAVA_ERROR_LOCATION : regex :=
  Bol +> Lit TAB +> lit "at "
      +> Group 1 (Plus (fun c => is_word c || one_of "." c))
      +> Lit "." +> Plus is_word +> Lit "("
      +> Plus (fun c => is_word c || one_of "." c)
      +> Lit ":" +> Group 2 (Plus is_digit) +> Lit ")" +> Eol.

Definition traceback_marker : string := String LF "stack traceback:".

(** The pattern compiled with [re.DOTALL]: group 1 holding a greedy
    repetition of [.], then a newline and [stack traceback:]. *)
Definition ERROR_MESSAGE : regex :=
  Group 1 (Star any) +> lit traceback_marker.

(** [re.compile(r"\s+")] *)
Definition SPACES : regex := Plus is_space.

(** ** Exceptions and standard output *)

Inductive exn : Type :=
| KeyError (key : string)     (* [d[key]] on a dict without [key] *)
| TypeError (site : string)   (* a pattern method applied to [None] *)
| ValueError (msg : string)   (* [os.path.relpath] of the empty path *)
| ParseError (msg : string).  (* whatever [ET.parse] raises on a file *)

(** A run prints lines and then returns a value or raises. *)
Definition io (A : Type) : Type := (list string * (exn + A))%type.

Definition ret {A : Type} (a : A) : io A := ([], inr a).

Definition raise {A : Type} (e : exn) : io A := ([], inl e).

Definition print (s : string) : io unit := ([s], inr tt).

Definition bind {A B : Type} (m : io A) (f : A -> io B) : io B :=
  match m with
  | (out, inl e) => (out, inl e)
  | (out, inr a) => (out ++ fst (f a), snd (f a))
  end.

Notation "x <- m ;; k" := (bind m (fun x => k))
  (at level 100, m at next level, right associativity).
Notation "m ;;; k" := (bind m (fun _ => k))
  (at level 100, right associativity).

Definition lift {A : Type} (r : exn + A) : io A := ([], r).

(** [for x in l: body(x)]; [continue] is a body that returns at once. *)
Fixpoint for_ {A : Type} (l : list A) (body : A -> io unit) : io unit :=
  match l with
  | [] => ret tt
  | x :: l' => body x ;;; for_ l' body
  end.

Definition output {A : Type} (m : io A) : list string := fst m.
Definition returned {A : Type} (m : io A) : exn + A := snd m.

Definition raises {A : Type} (m : io A) : Prop :=
  exists e, returned m = inl e.

(** ** XML elements, as [xml.etree.ElementTree] hands them out *)

#[local] Unset Elimination Schemes.
Inductive Element : Type :=
| MkElement (tag : string) (attrib : gmap string string)
    (text : option string) (children : list Element).
#[local] Set Elimination Schemes.

Definition tag (e : Element) : string :=
  match e with MkElement t _ _ _ => t end.
Definition attrib (e : Element) : gmap string string :=
  match e with MkElement _ a _ _ => a end.
(** [e.text] is [None] for an element without character data. *)
Definition text (e : Element) : option string :=
  match e with MkElement _ _ t _ => t end.
(** Iterating an element yields its children in document order. *)
Definition children (e : Element) : list Element :=
  match e with MkElement _ _ _ c => c end.

(** [d[key]] *)
Definition getitem (d : gmap string string) (key : string) : io string :=
  match d !! key with
  | Some v => ret v
  | None => raise (KeyError key)
  end.

(** [str(v)] for a value that is a string or [None]. *)
Definition str_of (v : option string) : string :=
  match v with
  | Some s => s
  | None => "None"
  end.

(** ** Configuration *)

Definition SOURCE_LOCATIONS : list string := [
  "src/main/java";
  "src/main/resources/data/computercraft/lua";
  "src/test/java";
  "src/test/resources"
].

Definition PROJECT_LOCATIONS : list string := [
  "projects/core-api";
  "projects/core";
  "projects/common-api";
  "projects/common";
  "projects/forge-api";
  "projects/forge"
].

(** ** [os.path.join] (posixpath) *)

Definition starts_with_sep (s : string) : bool :=
  match s with
  | String c _ => Ascii.eqb c "/"
  | EmptyString => false
  end.

Fixpoint ends_with_sep (s : string) : bool :=
  match s with
  | EmptyString => false
  | String c EmptyString => Ascii.eqb c "/"
  | String _ s' => ends_with_sep s'
  end.

Definition join_step (path b : string) : string :=
  if starts_with_sep b then b
  else if String.eqb path "" || ends_with_sep path then path +:+ b
  else path +:+ "/" +:+ b.

Definition os_path_join (a : string) (p : list string) : string :=
  fold_left join_step p a.

(** [s.replace(".", "/")] *)
Fixpoint replace_dots (s : string) : string :=
  match s with
  | EmptyString => EmptyString
  | String c s' =>
      String (if Ascii.eqb c "." then "/"%char else c) (replace_dots s')
  end.

(** [while len(path) > 0 and path[0] == "/": path = path[1:]] *)
Fixpoint strip_leading_sep (path : string) : string :=
  match path with
  | String c path' =>
      if Ascii.eqb c "/" then strip_leading_sep path' else path
  | EmptyString => path
  end.

(** ** The script, in its environment *)

Section Script.

(** [os.path.exists], for paths relative to the working directory. *)
Variable os_path_exists : string -> bool.

(** The names of the entries of a directory, in the order the platform
    lists them; no name when the path is not a directory. *)
Variable scandir : string -> list string.

(** [ET.parse(path).getroot()]: the root element, or the exception the
    parser raises. *)
Variable ET_parse : string -> exn + Element.

(** [os.path.relpath] of a non-empty path, from the working directory. *)
Variable relpath_from_cwd : string -> string.

Definition os_path_relpath (path : string) : io string :=
  if String.eqb path "" then raise (ValueError "no path specified")
  else ret (relpath_from_cwd path).

(** *** find_file *)

(** The inner loop of [find_file], over the source roots still to try. *)
Fixpoint find_in_sources (project path : string) (sources : list string)
    : option string :=
  match sources with
  | [] => None
  | source_dir :: sources' =>
      let child_path := os_path_join project [source_dir; path] in
      if os_path_exists child_path then Some child_path
      else find_in_sources project path sources'
  end.

(** The outer loop of [find_file], over the projects still to try. *)
Fixpoint find_in_projects (path : string) (projects : list string)
    : option string :=
  match projects with
  | [] => None
  | project :: projects' =>
      match find_in_sources project path SOURCE_LOCATIONS with
      | Some child_path => Some child_path
      | None => find_in_projects path projects'
      end
  end.

Definition find_file (path : string) : option string :=
  find_in_projects (strip_leading_sep path) PROJECT_LOCATIONS.

(** *** find_location *)

(** [file = find_file(location[1]); if file: return file, location[2]]
    for a match object or [None]; a path [find_file] returns is never
    empty, so [if file] tests for [None]. *)
Definition located (location : option Match) : option (string * string) :=
  match location with
  | Some location =>
      match find_file (group location 1) with
      | Some file => Some (file, group location 2)
      | None => None
      end
  | None => None
  end.

Definition java_source (qualified : string) : string :=
  replace_dots qualified +:+ ".java".

(** The loop over [JAVA_ERROR_LOCATION.findall(message)]. *)
Fixpoint first_frame (frames : list (string * string))
    : option (string * string) :=
  match frames with
  | [] => None
  | location :: frames' =>
      match find_file (java_source (fst location)) with
      | Some file => Some (file, snd location)
      | None => first_frame frames'
      end
  end.

(** [find_location] of a string. *)
Definition find_location_str (message : string) : option (string * string) :=
  match located (search LUA_ERROR_LOCATION message) with
  | Some found => Some found
  | None =>
      match located (search JAVA_LUA_ERROR_LOCATION message) with
      | Some found => Some found
      | None => first_frame (findall2 JAVA_ERROR_LOCATION message)
      end
  end.

Definition search_on_None : exn := TypeError "LUA_ERROR_LOCATION.search".
Definition match_on_None : exn := TypeError "ERROR_MESSAGE.match".

(** [find_location(message)]; the argument is [result.text], a string or
    [None], and the first statement, [LUA_ERROR_LOCATION.search(message)],
    raises on [None]. *)
Definition find_location (message : option string)
    : exn + option (string * string) :=
  match message with
  | None => inl search_on_None
  | Some message => inr (find_location_str message)
  end.

(** *** The JUnit scan *)

(** [error = ERROR_MESSAGE.match(message)] and the [if] that follows, for
    a string. *)
Definition error_summary (message : string) : string :=
  match match_ ERROR_MESSAGE message with
  | Some error => group error 1
  | None => message
  end.

(** The same for [message = result.attrib.get("message")]. *)
Definition error_of (message : option string) : exn + string :=
  match message with
  | None => inl match_on_None
  | Some message => inr (error_summary message)
  end.

(** The body of the inner loop of [_parse_junit_file], for a [result]
    whose tag is [failure]. *)
Definition junit_failure (testcase result : Element) : io unit :=
  classname <- getitem (attrib testcase) "classname" ;;
  test_name <- getitem (attrib testcase) "name" ;;
  let name := classname +:+ "." +:+ test_name in
  let message := attrib result !! "message" in
  location <- lift (find_location (text result)) ;;
  error <- lift (error_of message) ;;
  match location with
  | Some (file, line) =>
      print ("## " +:+ file +:+ ":" +:+ line +:+ ": " +:+ name
               +:+ " failed: " +:+ sub SPACES " " error)
  | None => print ("::error::" +:+ name +:+ " failed")
  end ;;;
  print "::group::Full error message" ;;;
  print (str_of (text result)) ;;;
  print "::endgroup".

Definition junit_result (testcase result : Element) : io unit :=
  if negb (String.eqb (tag result) "failure") then ret tt
  else junit_failure testcase result.

Definition junit_testcase (testcase : Element) : io unit :=
  if negb (String.eqb (tag testcase) "testcase") then ret tt
  else for_ (children testcase) (junit_result testcase).

(** The loops of [_parse_junit_file] over a parsed root. *)
Definition junit_root (root : Element) : io unit :=
  for_ (children root) junit_testcase.

Definition _parse_junit_file (path : string) : io unit :=
  root <- lift (ET_parse path) ;;
  junit_root root.

(** [fnmatch.translate("TEST-*.xml")] and [fnmatch.translate("*.xml")],
    which [Path.glob] matches in full against each entry name. *)
Definition TEST_xml : regex := lit "TEST-" +> Star any +> lit ".xml".
Definition any_xml : regex := Star any +> lit ".xml".

Definition matches (pattern : regex) (name : string) : bool :=
  match fullmatch pattern name with
  | Some _ => true
  | None => false
  end.

(** [pathlib.Path(directory).glob(pattern)] for a pattern of one
    component with a wildcard: the entries of the directory itself whose
    name matches. *)
Definition glob (directory : string) (pattern : regex) : list string :=
  map (fun name => directory +:+ "/" +:+ name)
      (List.filter (matches pattern) (scandir directory)).

Definition junit_reports (project : string) : list string :=
  glob (os_path_join project ["build/test-results/test"]) TEST_xml.

Definition parse_junit : io unit :=
  print "::add-matcher::.github/matchers/junit.json" ;;;
  for_ PROJECT_LOCATIONS
    (fun project => for_ (junit_reports project) _parse_junit_file) ;;;
  print "::remove-matcher owner=junit::".

(** *** The Checkstyle scan *)

(** The body of the inner loop of [_parse_checkstyle]. *)
Definition checkstyle_error (file error : Element) : io unit :=
  file_name <- getitem (attrib file) "name" ;;
  filename <- os_path_relpath file_name ;;
  let attrib := attrib error in
  severity <- getitem attrib "severity" ;;
  line <- getitem attrib "line" ;;
  let column := default "1" (attrib !! "column") in
  message <- getitem attrib "message" ;;
  print (severity +:+ " " +:+ filename +:+ ":" +:+ line +:+ ":" +:+ column
           +:+ ": " +:+ sub SPACES " " message).

Definition checkstyle_root (root : Element) : io unit :=
  for_ (children root)
    (fun file => for_ (children file) (checkstyle_error file)).

Definition _parse_checkstyle (path : string) : io unit :=
  root <- lift (ET_parse path) ;;
  checkstyle_root root.

(** [pathlib.Path] drops the separator that ends
    [os.path.join(project, "build/reports/checkstyle/")]. *)
Definition checkstyle_reports (project : string) : list string :=
  glob (os_path_join project ["build/reports/checkstyle"]) any_xml.

Definition parse_checkstyle : io unit :=
  print "::add-matcher::.github/matchers/checkstyle.json" ;;;
  for_ PROJECT_LOCATIONS
    (fun project => for_ (checkstyle_reports project) _parse_checkstyle) ;;;
  print "::remove-matcher owner=checkstyle::".

Definition main : io unit :=
  parse_junit ;;; parse_checkstyle.

End Script.

(** * Properties *)

(** ** Strings *)

Lemma append_cons (x : ascii) (a b : string) :
  String x a +:+ b = String x (a +:+ b).
Proof. reflexivity. Qed.

Lemma append_empty_l (a : string) : "" +:+ a = a.
Proof. reflexivity. Qed.

Lemma append_assoc (a b c : string) : (a +:+ b) +:+ c = a +:+ b +:+ c.
Proof.
  induction a as [|x a IH]; [reflexivity |].
  rewrite !append_cons. f_equal. exact IH.
Qed.

Lemma append_empty_r (a : string) : a +:+ "" = a.
Proof.
  induction a as [|x a IH]; [reflexivity |].
  rewrite append_cons. f_equal. exact IH.
Qed.

Lemma strip_leading_sep_no_sep (path : string) :
  starts_with_sep (strip_leading_sep path) = false.
Proof.
  induction path as [|c path IH]; simpl; [reflexivity |].
  destruct (Ascii.eqb c "/") eqn:E; [exact IH | simpl; exact E].
Qed.

(** [n] separators in a row. *)
Fixpoint seps (n : nat) : string :=
  match n with
  | O => EmptyString
  | S n' => String "/" (seps n')
  end.

Lemma strip_leading_sep_spec (path : string) :
  exists n, path = seps n +:+ strip_leading_sep path.
Proof.
  induction path as [|c path [n IH]]; simpl.
  - exists 0. reflexivity.
  - destruct (Ascii.eqb_spec c "/") as [->|Hc].
    + exists (S n). simpl seps. rewrite append_cons, <- IH. reflexivity.
    + exists 0. reflexivity.
Qed.

(** ** find_file *)

Section FindFile.

Variable os_path_exists : string -> bool.

(** The combinations [project/source_root/path], project by project and,
    within a project, source root by source root. *)
Definition candidates (path : string) : list string :=
  flat_map
    (fun project =>
       map (fun source_dir => project +:+ "/" +:+ source_dir +:+ "/" +:+ path)
           SOURCE_LOCATIONS)
    PROJECT_LOCATIONS.

Lemma join_candidate (project source_dir path : string) :
  In project PROJECT_LOCATIONS -> In source_dir SOURCE_LOCATIONS ->
  starts_with_sep path = false ->
  os_path_join project [source_dir; path]
  = project +:+ "/" +:+ source_dir +:+ "/" +:+ path.
Proof.
  intros Hp Hs Hpath. unfold os_path_join. simpl fold_left.
  unfold join_step at 1. rewrite Hpath.
  simpl in Hp, Hs.
  repeat (destruct Hp as [<-|Hp]; [|]); try contradiction;
    repeat (destruct Hs as [<-|Hs]; [|]); try contradiction;
    cbn; reflexivity.
Qed.

Lemma find_in_sources_find (project path : string) (sources : list string) :
  In project PROJECT_LOCATIONS -> incl sources SOURCE_LOCATIONS ->
  starts_with_sep path = false ->
  find_in_sources os_path_exists project path sources
  = List.find os_path_exists
      (map (fun source_dir => project +:+ "/" +:+ source_dir +:+ "/" +:+ path)
           sources).
Proof.
  intros Hp Hs Hpath.
  induction sources as [|s sources IH]; cbn [find_in_sources map List.find].
  - reflexivity.
  - rewrite join_candidate by (auto; apply Hs; left; reflexivity).
    destruct (os_path_exists _); [reflexivity |].
    apply IH. intros x Hx. apply Hs. right. exact Hx.
Qed.

Lemma find_app {A : Type} (f : A -> bool) (l1 l2 : list A) :
  List.find f (l1 ++ l2)
  = match List.find f l1 with
    | Some x => Some x
    | None => List.find f l2
    end.
Proof.
  induction l1 as [|x l1 IH]; simpl; [reflexivity |].
  destruct (f x); [reflexivity | exact IH].
Qed.

Lemma find_in_projects_find (path : string) (projects : list string) :
  incl projects PROJECT_LOCATIONS -> starts_with_sep path = false ->
  find_in_projects os_path_exists path projects
  = List.find os_path_exists
      (flat_map
         (fun project =>
            map (fun source_dir =>
                   project +:+ "/" +:+ source_dir +:+ "/" +:+ path)
                SOURCE_LOCATIONS)
         projects).
Proof.
  intros Hp Hpath.
  induction projects as [|p projects IH]; cbn [find_in_projects flat_map].
  - reflexivity.
  - rewrite find_app.
    rewrite find_in_sources_find
      by (auto using incl_refl; apply Hp; left; reflexivity).
    destruct (List.find os_path_exists (map _ SOURCE_LOCATIONS));
      [reflexivity |].
    apply IH. intros x Hx. apply Hp. right. exact Hx.
Qed.

Lemma find_file_find (path : string) :
  find_file os_path_exists path
  = List.find os_path_exists (candidates (strip_leading_sep path)).
Proof.
  unfold find_file, candidates.
  apply find_in_projects_find;
    [apply incl_refl | apply strip_leading_sep_no_sep].
Qed.

Lemma find_first {A : Type} (f : A -> bool) (l : list A) (x : A) :
  List.find f l = Some x
  <-> exists before after,
        l = before ++ x :: after /\ f x = true
        /\ Forall (fun y => f y = false) before.
Proof.
  induction l as [|y l IH]; simpl.
  - split; [discriminate |].
    intros (before & after & H & _). destruct before; discriminate.
  - destruct (f y) eqn:Hy.
    + split.
      * intros [= ->]. exists [], l. repeat split; [exact Hy | constructor].
      * intros (before & after & H & Hx & Hb).
        destruct before as [|b before]; simpl in H; injection H as -> H.
        -- reflexivity.
        -- inversion Hb; congruence.
    + rewrite IH. split.
      * intros (before & after & -> & Hx & Hb).
        exists (y :: before), after. repeat split; [exact Hx |].
        constructor; assumption.
      * intros (before & after & H & Hx & Hb).
        destruct before as [|b before]; simpl in H; injection H as -> H.
        -- congruence.
        -- exists before, after. inversion Hb. auto.
Qed.

Lemma find_nowhere {A : Type} (f : A -> bool) (l : list A) :
  List.find f l = None <-> Forall (fun y => f y = false) l.
Proof.
  induction l as [|y l IH]; simpl.
  - split; [constructor | reflexivity].
  - destruct (f y) eqn:Hy.
    + split; [discriminate | intros H; inversion H; congruence].
    + rewrite IH. split; [now constructor | intros H; now inversion H].
Qed.

(** C3.  [find_file] strips every leading separator of its argument, then
    returns the first combination [project/source_root/path] that exists,
    the six projects taken in their declared order and, within each, the
    four source roots in theirs; it returns [None] exactly when none of
    the combinations exists. *)
Theorem find_file_first_existing (path : string) :
  let stripped := strip_leading_sep path in
  (exists n, path = seps n +:+ stripped)
  /\ starts_with_sep stripped = false
  /\ length PROJECT_LOCATIONS = 6 /\ length SOURCE_LOCATIONS = 4
  /\ (forall child,
        find_file os_path_exists path = Some child
        <-> exists before after,
              candidates stripped = before ++ child :: after
              /\ os_path_exists child = true
              /\ Forall (fun c => os_path_exists c = false) before)
  /\ (find_file os_path_exists path = None
      <-> Forall (fun c => os_path_exists c = false) (candidates stripped)).
Proof.
  intros stripped. split; [apply strip_leading_sep_spec |].
  split; [apply strip_leading_sep_no_sep |].
  split; [reflexivity |]. split; [reflexivity |].
  rewrite find_file_find. fold stripped. split.
  - intros child. apply find_first.
  - apply find_nowhere.
Qed.

Lemma find_file_exists (path child : string) :
  find_file os_path_exists path = Some child -> os_path_exists child = true.
Proof.
  rewrite find_file_find. intros H. apply find_some in H. apply H.
Qed.

End FindFile.

(** ** The matcher on the script's patterns *)

(** The length of the longest prefix of [s] inside the class [p]. *)
Fixpoint run (p : ascii -> bool) (s : string) : nat :=
  match s with
  | String c s' => if p c then S (run p s') else 0
  | EmptyString => 0
  end.

(** A repetition with nothing after it takes the whole run. *)
Lemma star_whole_run (p : ascii -> bool) (caps : captures)
    (pv : option ascii) (s : string) (i : nat) :
  exists cur,
    star p (fun cur' => Some (cur', caps)) pv s i = Some (cur, caps)
    /\ pos cur = i + run p s.
Proof.
  revert pv i. induction s as [|c s IH]; intros pv i; simpl.
  - eexists. split; [reflexivity | simpl; lia].
  - destruct (p c).
    + destruct (IH (Some c) (S i)) as (cur & -> & Hpos).
      exists cur. split; [reflexivity | lia].
    + eexists. split; [reflexivity | simpl; lia].
Qed.

Lemma match_at_SPACES_space (pv : option ascii) (c : ascii) (s : string)
    (i : nat) :
  is_space c = true ->
  exists m,
    match_at SPACES (Cursor pv (String c s) i) = Some m
    /\ m_end m - m_start m = S (run is_space s).
Proof.
  intros Hc. unfold match_at, SPACES. cbn [exec]. unfold step1.
  cbn [rest pos prev]. rewrite Hc. unfold star_at. cbn [rest pos prev].
  destruct (star_whole_run is_space [] (Some c) s (S i)) as (cur & -> & Hpos).
  eexists. split; [reflexivity |]. cbn [m_end m_start pos]. lia.
Qed.

Lemma match_at_SPACES_other (pv : option ascii) (c : ascii) (s : string)
    (i : nat) :
  is_space c = false ->
  match_at SPACES (Cursor pv (String c s) i) = None.
Proof.
  intros Hc. unfold match_at, SPACES. cbn [exec]. unfold step1.
  cbn [rest pos prev]. now rewrite Hc.
Qed.

(** Every run of whitespace replaced by one space: [in_run] tells that
    the character before belongs to a run already replaced. *)
Fixpoint collapse_from (in_run : bool) (s : string) : string :=
  match s with
  | EmptyString => EmptyString
  | String c s' =>
      if is_space c then
        if in_run then collapse_from true s'
        else String " " (collapse_from true s')
      else String c (collapse_from false s')
  end.

Definition collapse (s : string) : string := collapse_from false s.

Lemma sub_SPACES_from (s : string) :
  forall (pv : option ascii) (i : nat),
    sub_from SPACES " " pv s i 0 = collapse_from false s
    /\ sub_from SPACES " " pv s i (run is_space s) = collapse_from true s.
Proof.
  induction s as [|c s IH]; intros pv i.
  - split; reflexivity.
  - assert (H0 : sub_from SPACES " " pv (String c s) i 0
                 = collapse_from false (String c s)).
    { cbn [sub_from collapse_from].
      destruct (is_space c) eqn:Hc.
      - destruct (match_at_SPACES_space pv c s i Hc) as (m & -> & Hlen).
        rewrite Hlen. cbn [pred].
        rewrite (proj2 (IH (Some c) (S i))). reflexivity.
      - rewrite (match_at_SPACES_other pv c s i Hc).
        rewrite (proj1 (IH (Some c) (S i))). reflexivity. }
    split; [exact H0 |].
    cbn [run]. destruct (is_space c) eqn:Hc.
    + cbn [sub_from collapse_from]. rewrite Hc.
      apply (proj2 (IH (Some c) (S i))).
    + rewrite H0. cbn [collapse_from]. rewrite Hc. reflexivity.
Qed.

(** [SPACES.sub(" ", s)] collapses every run of whitespace of [s] into
    one space. *)
Lemma sub_SPACES (s : string) : sub SPACES " " s = collapse s.
Proof. apply (proj1 (sub_SPACES_from s None 0)). Qed.

Lemma length_append (a b : string) :
  String.length (a +:+ b) = String.length a + String.length b.
Proof.
  induction a as [|x a IH]; [reflexivity |].
  rewrite append_cons. simpl. now rewrite IH.
Qed.

Lemma take_str_append (a b : string) : take_str (String.length a) (a +:+ b) = a.
Proof.
  induction a as [|x a IH]; [now destruct b |].
  rewrite append_cons. simpl. now rewrite IH.
Qed.

(** The cursor past the literal [t], when the text at the cursor starts
    with it. *)
Fixpoint skip_lit (t : string) (cur : cursor) : option cursor :=
  match t with
  | EmptyString => Some cur
  | String c t' =>
      match rest cur with
      | String x s' =>
          if Ascii.eqb c x then skip_lit t' (Cursor (Some x) s' (S (pos cur)))
          else None
      | EmptyString => None
      end
  end.

Lemma exec_lit (t : string) (k : cont) (cur : cursor) (caps : captures) :
  exec (lit t) k cur caps
  = match skip_lit t cur with
    | Some cur' => k cur' caps
    | None => None
    end.
Proof.
  revert cur. induction t as [|c t IH]; intros cur; [reflexivity |].
  cbn [lit exec skip_lit]. unfold step1.
  destruct (rest cur) as [|x s']; [reflexivity |].
  destruct (Ascii.eqb c x); [apply IH | reflexivity].
Qed.

Lemma skip_lit_some (t : string) (cur cur' : cursor) :
  skip_lit t cur = Some cur' ->
  rest cur = t +:+ rest cur' /\ pos cur' = pos cur + String.length t.
Proof.
  revert cur. induction t as [|c t IH]; intros cur; cbn [skip_lit].
  - intros [= <-]. split; [reflexivity | simpl; lia].
  - destruct (rest cur) as [|x s'] eqn:Hrest; [discriminate |].
    destruct (Ascii.eqb_spec c x) as [->|]; [| discriminate].
    intros H. apply IH in H. cbn [rest pos] in H. destruct H as [-> ->].
    split; [reflexivity | simpl; lia].
Qed.

Lemma skip_lit_prefix (t b : string) (cur : cursor) :
  rest cur = t +:+ b ->
  exists cur', skip_lit t cur = Some cur' /\ rest cur' = b.
Proof.
  revert cur. induction t as [|c t IH]; intros cur; cbn [skip_lit].
  - intros H. exists cur. split; [reflexivity | exact H].
  - rewrite append_cons. intros ->. rewrite Ascii.eqb_refl.
    apply IH. reflexivity.
Qed.

Lemma skip_lit_none (t b : string) (cur : cursor) :
  skip_lit t cur = None -> rest cur <> t +:+ b.
Proof.
  intros Hnone Heq. destruct (skip_lit_prefix t b cur Heq) as (cur' & H & _).
  congruence.
Qed.

(** [t] occurs in [s] with [a] before it, and nowhere further right. *)
Definition last_occurrence (t s a : string) : Prop :=
  (exists b, s = a +:+ t +:+ b)
  /\ forall a' b', s = a' +:+ t +:+ b' -> String.length a' <= String.length a.

Definition occurs (t s : string) : Prop := exists a b, s = a +:+ t +:+ b.

(** A greedy [.*] under [re.DOTALL] followed by a literal stops before the
    last occurrence of the literal; [cap] computes the capture from the
    position reached. *)
Lemma star_any_lit (t : string) (cap : nat -> captures) (s : string) :
  forall (pv : option ascii) (i : nat),
    match star any
            (fun cur' =>
               exec (lit t) (fun cur'' caps => Some (cur'', caps)) cur'
                    (cap (pos cur')))
            pv s i with
    | Some (cur', caps) =>
        exists a, last_occurrence t s a
                  /\ caps = cap (i + String.length a)
                  /\ pos cur' = i + String.length a + String.length t
    | None => ~ occurs t s
    end.
Proof.
  induction s as [|c s IH]; intros pv i.
  - cbn [star]. rewrite exec_lit.
    destruct (skip_lit t (Cursor pv "" i)) as [cur'|] eqn:Hskip.
    + apply skip_lit_some in Hskip. cbn [rest pos] in Hskip.
      destruct Hskip as [Hrest Hpos]. exists "". repeat split.
      * exists (rest cur'). exact Hrest.
      * intros a' b' H. destruct a'; [simpl; lia | discriminate].
      * cbn [pos]. f_equal. simpl. lia.
      * simpl. lia.
    + intros (a & b & H). destruct a; [| discriminate].
      apply (skip_lit_none t b _ Hskip). exact H.
  - cbn [star]. unfold any at 1.
    specialize (IH (Some c) (S i)).
    match goal with
    | |- context [star any ?k (Some c) s (S i)] =>
        destruct (star any k (Some c) s (S i)) as [[cur' caps]|]
    end.
    + destruct IH as (a & [[b Hb] Hlast] & Hcaps & Hpos).
      exists (String c a). repeat split.
      * exists b. rewrite append_cons. now f_equal.
      * intros a' b' H. destruct a' as [|c' a']; [simpl; lia |].
        rewrite append_cons in H. injection H as _ H.
        apply Hlast in H. simpl. lia.
      * rewrite Hcaps. f_equal. simpl. lia.
      * rewrite Hpos. simpl. lia.
    + rewrite exec_lit.
      destruct (skip_lit t (Cursor pv (String c s) i)) as [cur'|] eqn:Hskip.
      * apply skip_lit_some in Hskip. cbn [rest pos] in Hskip.
        destruct Hskip as [Hrest Hpos]. exists "". repeat split.
        -- exists (rest cur'). exact Hrest.
        -- intros a' b' H. destruct a' as [|c' a']; [simpl; lia |].
           rewrite append_cons in H. injection H as _ H.
           exfalso. apply IH. exists a', b'. exact H.
        -- cbn [pos]. f_equal. simpl. lia.
        -- simpl. lia.
      * intros (a & b & H). destruct a as [|c' a].
        -- apply (skip_lit_none t b _ Hskip). exact H.
        -- rewrite append_cons in H. injection H as _ H.
           apply IH. exists a, b. exact H.
Qed.

(** [ERROR_MESSAGE.match(message)] succeeds exactly when the marker
    occurs in the message, and its group 1 is then the text before the
    last occurrence. *)
Lemma match_ERROR_MESSAGE (message : string) :
  match match_ ERROR_MESSAGE message with
  | Some error => last_occurrence traceback_marker message (group error 1)
  | None => ~ occurs traceback_marker message
  end.
Proof.
  unfold match_, match_at, start_of, ERROR_MESSAGE.
  cbn [exec]. unfold star_at. cbn [rest pos prev].
  pose proof (star_any_lit traceback_marker
                (fun n => [(1, take_str (n - 0) message)]) message None 0)
    as H.
  cbv beta in H.
  match goal with
  | |- context [star any ?k None message 0] =>
      destruct (star any k None message 0) as [[cur' caps]|]
  end; [| exact H].
  destruct H as (a & Hlast & -> & _).
  unfold group. cbn [m_groups lookup_group Nat.eqb].
  replace (0 + String.length a - 0) with (String.length a) by lia.
  destruct Hlast as [[b Hb] Hmax].
  assert (Ha : take_str (String.length a) message = a)
    by (rewrite Hb; apply take_str_append).
  rewrite Ha. split; [exists b; exact Hb | exact Hmax].
Qed.

Lemma append_same_length (a a' b b' : string) :
  a +:+ b = a' +:+ b' -> String.length a = String.length a' -> a = a'.
Proof.
  revert a'. induction a as [|x a IH]; intros [|x' a'] H Hlen;
    try discriminate; [reflexivity |].
  rewrite !append_cons in H. injection H as -> H.
  f_equal. apply IH; [exact H | simpl in Hlen; lia].
Qed.

Lemma last_occurrence_unique (t s a a' : string) :
  last_occurrence t s a -> last_occurrence t s a' -> a = a'.
Proof.
  intros [[b Hb] Hmax] [[b' Hb'] Hmax'].
  apply (append_same_length a a' (t +:+ b) (t +:+ b')); [congruence |].
  apply Nat.le_antisymm; [eapply Hmax'; eassumption | eapply Hmax; eassumption].
Qed.

(** The summary of a message: the text before the last traceback marker
    when there is one, the message itself otherwise. *)
Lemma error_summary_spec (message : string) :
  (forall a, last_occurrence traceback_marker message a ->
             error_summary message = a)
  /\ (~ occurs traceback_marker message -> error_summary message = message).
Proof.
  unfold error_summary. pose proof (match_ERROR_MESSAGE message) as H.
  destruct (match_ ERROR_MESSAGE message) as [error|]; split.
  - intros a Ha. eapply last_occurrence_unique; eassumption.
  - intros Hno. exfalso. apply Hno. destruct H as [[b Hb] _].
    exists (group error 1), b. exact Hb.
  - intros a [[b Hb] _]. exfalso. apply H. exists a, b. exact Hb.
  - reflexivity.
Qed.

(** A greedy [.*] followed by a literal and the end of the string: the
    string ends with the literal. *)
Lemma lit_then_end (t : string) (cur : cursor) (caps : captures) :
  exec (lit t) (exec EoS (fun cur' caps' => Some (cur', caps'))) cur caps
  <> None
  <-> rest cur = t.
Proof.
  rewrite exec_lit. destruct (skip_lit t cur) as [cur'|] eqn:Hskip.
  - apply skip_lit_some in Hskip. destruct Hskip as [Hrest _].
    cbn [exec]. destruct (rest cur') as [|x s'] eqn:Hr.
    + rewrite append_empty_r in Hrest. split; [auto | discriminate].
    + split; [congruence |]. intros H. exfalso. rewrite H in Hrest.
      apply (f_equal String.length) in Hrest.
      rewrite length_append in Hrest. simpl in Hrest. lia.
  - split; [congruence |]. intros H. exfalso.
    apply (skip_lit_none t "" cur Hskip). now rewrite append_empty_r.
Qed.

Lemma append_inv_head (a b c : string) : a +:+ b = a +:+ c -> b = c.
Proof.
  induction a as [|x a IH]; [auto |].
  rewrite !append_cons. intros [= H]. auto.
Qed.

Lemma star_any_reaches (k : cursor -> option outcome) (t : string) :
  (forall cur, k cur <> None <-> rest cur = t) ->
  forall (s : string) (pv : option ascii) (i : nat),
    star any k pv s i <> None <-> exists a, s = a +:+ t.
Proof.
  intros Hk s. induction s as [|c s IH]; intros pv i; cbn [star].
  - rewrite Hk. cbn [rest]. split.
    + intros <-. exists "". reflexivity.
    + intros [a H]. destruct a; [exact H | discriminate].
  - unfold any at 1. specialize (IH (Some c) (S i)).
    destruct (star any k (Some c) s (S i)) as [o|].
    + split; [| discriminate]. intros _.
      destruct (proj1 IH) as [a Ha]; [discriminate |].
      exists (String c a). rewrite append_cons. now f_equal.
    + rewrite Hk. cbn [rest]. split.
      * intros <-. exists "". reflexivity.
      * intros [a H]. destruct a as [|c' a]; [exact H |].
        rewrite append_cons in H. injection H as _ H.
        exfalso. apply (proj2 IH); [exists a; exact H | reflexivity].
Qed.

(** The translation of a glob pattern [t1*t2] matches the names that
    start with [t1] and end, after it, with [t2]. *)
Lemma matches_lit_any_lit (t1 t2 name : string) :
  matches (lit t1 +> Star any +> lit t2) name = true
  <-> exists middle, name = t1 +:+ middle +:+ t2.
Proof.
  unfold matches, fullmatch, match_at, start_of.
  change (exec ((lit t1 +> Star any +> lit t2) +> EoS)
            (fun cur' caps => Some (cur', caps)) (Cursor None name 0) [])
    with (exec (lit t1)
            (star_at any
               (exec (lit t2) (exec EoS (fun cur' caps => Some (cur', caps)))))
            (Cursor None name 0) []).
  rewrite exec_lit.
  destruct (skip_lit t1 (Cursor None name 0)) as [cur|] eqn:Hskip.
  - pose proof (skip_lit_some _ _ _ Hskip) as [Hrest _]. cbn [rest] in Hrest.
    unfold star_at.
    pose proof (star_any_reaches _ t2 (fun cur' => lit_then_end t2 cur' [])
                  (rest cur) (prev cur) (pos cur)) as H.
    cbv beta in H.
    match type of H with
    | ?x <> None <-> _ => destruct x as [[c1 c2]|]
    end.
    + split; [| reflexivity]. intros _.
      destruct (proj1 H) as [a Ha]; [discriminate |].
      exists a. rewrite Hrest, Ha. reflexivity.
    + split; [discriminate |]. intros [middle Hm]. exfalso.
      apply (proj2 H); [| reflexivity].
      exists middle. rewrite Hm in Hrest.
      apply append_inv_head in Hrest. auto.
  - split; [discriminate |]. intros [middle Hm]. exfalso.
    apply (skip_lit_none t1 (middle +:+ t2) _ Hskip). exact Hm.
Qed.

(** [Path.glob("TEST-*.xml")] keeps the names that start with [TEST-]
    and end, after it, with [.xml]. *)
Lemma matches_TEST_xml (name : string) :
  matches TEST_xml name = true
  <-> exists middle, name = "TEST-" +:+ middle +:+ ".xml".
Proof. apply matches_lit_any_lit. Qed.

(** ** Printing and raising *)

Lemma bind_ret_l {A B : Type} (a : A) (f : A -> io B) :
  bind (ret a) f = f a.
Proof. unfold bind, ret. simpl. now destruct (f a). Qed.

Lemma bind_raise {A B : Type} (e : exn) (f : A -> io B) :
  bind (raise e) f = raise e.
Proof. reflexivity. Qed.

Lemma raises_bind_l {A B : Type} (m : io A) (f : A -> io B) :
  raises m -> raises (bind m f).
Proof.
  intros [e He]. exists e. destruct m as [out [e'|a]]; simpl in *;
    [congruence | discriminate].
Qed.

Lemma raises_bind_r {A B : Type} (m : io A) (f : A -> io B) :
  (forall a, raises (f a)) -> raises (bind m f).
Proof.
  intros Hf. destruct m as [out [e|a]].
  - exists e. reflexivity.
  - destruct (Hf a) as [e He]. exists e. exact He.
Qed.

(** A loop raises as soon as one of its iterations does: either an
    earlier iteration raised, or that one is reached and raises. *)
Lemma for_raises {A : Type} (l : list A) (body : A -> io unit) (x : A) :
  In x l -> raises (body x) -> raises (for_ l body).
Proof.
  intros Hin Hx. induction l as [|y l IH]; [contradiction |].
  cbn [for_]. destruct Hin as [->|Hin].
  - apply raises_bind_l. exact Hx.
  - apply raises_bind_r. intros _. apply IH. exact Hin.
Qed.

(** Iterations that return at once can be left out of a loop. *)
Lemma for_filter {A : Type} (keep : A -> bool) (l : list A)
    (body : A -> io unit) :
  (forall x, keep x = false -> body x = ret tt) ->
  for_ (List.filter keep l) body = for_ l body.
Proof.
  intros Hskip. induction l as [|x l IH]; [reflexivity |].
  cbn [List.filter for_]. destruct (keep x) eqn:Hx.
  - cbn [for_]. now rewrite IH.
  - rewrite (Hskip x Hx), bind_ret_l. exact IH.
Qed.

Lemma for_ext {A : Type} (l : list A) (body body' : A -> io unit) :
  (forall x, In x l -> body x = body' x) -> for_ l body = for_ l body'.
Proof.
  intros H. induction l as [|x l IH]; [reflexivity |].
  cbn [for_]. rewrite (H x) by (left; reflexivity).
  f_equal. rewrite IH; [reflexivity |].
  intros y Hy. apply H. right. exact Hy.
Qed.

Lemma for_map {A B : Type} (g : A -> B) (l : list A) (body : B -> io unit) :
  for_ (map g l) body = for_ l (fun x => body (g x)).
Proof.
  induction l as [|x l IH]; [reflexivity |].
  cbn [map for_]. now rewrite IH.
Qed.

(** ** find_location' *)

Section FindLocation.

Variable os_path_exists : string -> bool.

Local Abbreviation find_file' := (find_file os_path_exists).
Local Abbreviation located' := (located os_path_exists).
Local Abbreviation first_frame' := (first_frame os_path_exists).
Local Abbreviation find_location' := (find_location os_path_exists).

(** A frame whose class resolves to no source file. *)
Definition unresolved (frame : string * string) : Prop :=
  find_file' (java_source (fst frame)) = None.

(** [found] is the file and line of the first frame of [frames], in
    their order, whose class resolves to a source file. *)
Definition first_resolvable (frames : list (string * string))
    (found : string * string) : Prop :=
  exists before qualified after,
    frames = before ++ (qualified, snd found) :: after
    /\ find_file' (java_source qualified) = Some (fst found)
    /\ Forall unresolved before.

Lemma first_frame_some (frames : list (string * string))
    (found : string * string) :
  first_frame' frames = Some found <-> first_resolvable frames found.
Proof.
  unfold first_resolvable. induction frames as [|[q l] frames IH].
  - split; [discriminate |].
    intros (before & ? & ? & H & _). destruct before; discriminate.
  - cbn [first_frame fst snd].
    destruct (find_file' (java_source q)) as [file|] eqn:Hq.
    + split.
      * intros [= <-]. exists [], q, frames. cbn. auto.
      * intros (before & q' & after & H & Hres & Hb).
        destruct before as [|b before]; simpl in H.
        -- injection H as -> Hl _. destruct found as [f l'].
           simpl in *. congruence.
        -- injection H as <- _. inversion Hb as [|? ? Hu _].
           unfold unresolved in Hu. simpl in Hu. congruence.
    + rewrite IH. split.
      * intros (before & q' & after & -> & Hres & Hb).
        exists ((q, l) :: before), q', after. repeat split; auto.
      * intros (before & q' & after & H & Hres & Hb).
        destruct before as [|b before]; simpl in H.
        -- injection H as -> _ _. congruence.
        -- injection H as <- ->. inversion Hb.
           exists before, q', after. auto.
Qed.

Lemma first_frame_none (frames : list (string * string)) :
  first_frame' frames = None <-> Forall unresolved frames.
Proof.
  induction frames as [|[q l] frames IH].
  - split; [constructor | reflexivity].
  - cbn [first_frame fst snd].
    destruct (find_file' (java_source q)) as [file|] eqn:Hq.
    + split; [discriminate |]. intros H. inversion H as [|? ? Hu _].
      unfold unresolved in Hu. simpl in Hu. congruence.
    + rewrite IH. split; [now constructor | intros H; now inversion H].
Qed.

Lemma located_exists (location : option Match) (file line : string) :
  located' location = Some (file, line) -> os_path_exists file = true.
Proof.
  destruct location as [m|]; [| discriminate]. cbn [located].
  destruct (find_file' (group m 1)) as [f|] eqn:Hf; [| discriminate].
  intros [= <- _]. eapply find_file_exists. exact Hf.
Qed.

Lemma first_frame_exists (frames : list (string * string))
    (file line : string) :
  first_frame' frames = Some (file, line) -> os_path_exists file = true.
Proof.
  rewrite first_frame_some. intros (_ & q & _ & _ & Hq & _).
  eapply find_file_exists. exact Hq.
Qed.

(** C4, as the code has it.  The first Lua-style match wins when its
    path resolves.  When it does not, [find_location'] goes on to the
    Java-wrapped-Lua matcher and then to the Java frames: the first
    resolvable Java frame is returned unless the wrapped matcher yields a
    resolved location first.  Whatever is returned names a file that
    exists, so never the unresolved path of the Lua match. *)
Theorem lua_match_wins_or_falls_through (message : string)
    (location : Match) :
  search LUA_ERROR_LOCATION message = Some location ->
  (forall file,
      find_file' (group location 1) = Some file ->
      find_location' (Some message) = inr (Some (file, group location 2)))
  /\ (find_file' (group location 1) = None ->
      (forall found,
          located' (search JAVA_LUA_ERROR_LOCATION message) = Some found ->
          find_location' (Some message) = inr (Some found))
      /\ (forall found,
             located' (search JAVA_LUA_ERROR_LOCATION message) = None ->
             first_resolvable (findall2 JAVA_ERROR_LOCATION message) found ->
             find_location' (Some message) = inr (Some found)))
  /\ (forall file line,
         find_location' (Some message) = inr (Some (file, line)) ->
         os_path_exists file = true).
Proof.
  intros Hlua. cbn [find_location]. unfold find_location_str.
  rewrite Hlua. cbn [located]. repeat split.
  - intros file ->. reflexivity.
  - intros found Hwrapped. rewrite H, Hwrapped. reflexivity.
  - intros found Hwrapped Hframe. rewrite H, Hwrapped.
    apply first_frame_some in Hframe. now rewrite Hframe.
  - intros file line.
    destruct (find_file' (group location 1)) as [f|] eqn:Hf.
    + intros [= <- _]. eapply find_file_exists. exact Hf.
    + destruct (located' (search JAVA_LUA_ERROR_LOCATION message))
        as [found|] eqn:Hw.
      * intros [= ->]. eapply located_exists. exact Hw.
      * intros [= H]. eapply first_frame_exists. exact H.
Qed.

(** With no resolvable Lua-style or Java-wrapped-Lua match, the result
    is that of the loop over the frames. *)
Lemma find_location_frames_loop (message : string) :
  located' (search LUA_ERROR_LOCATION message) = None ->
  located' (search JAVA_LUA_ERROR_LOCATION message) = None ->
  find_location' (Some message)
  = inr (first_frame' (findall2 JAVA_ERROR_LOCATION message)).
Proof.
  intros Hlua Hwrapped. cbn [find_location]. unfold find_location_str.
  now rewrite Hlua, Hwrapped.
Qed.

End FindLocation.

(** ** The scans *)

Section Scans.

Variable os_path_exists : string -> bool.
Variable scandir : string -> list string.
Variable ET_parse : string -> exn + Element.
Variable relpath_from_cwd : string -> string.

Local Abbreviation find_location_str' := (find_location_str os_path_exists).
Local Abbreviation junit_failure' := (junit_failure os_path_exists).
Local Abbreviation junit_result' := (junit_result os_path_exists).
Local Abbreviation junit_testcase' := (junit_testcase os_path_exists).
Local Abbreviation junit_root' := (junit_root os_path_exists).
Local Abbreviation _parse_junit_file' :=
  (_parse_junit_file os_path_exists ET_parse).
Local Abbreviation junit_reports' := (junit_reports scandir).
Local Abbreviation parse_junit' :=
  (parse_junit os_path_exists scandir ET_parse).
Local Abbreviation checkstyle_error' := (checkstyle_error relpath_from_cwd).

(** The line printed first for a failure. *)
Definition headline (name message body : string) : string :=
  match find_location_str' body with
  | Some (file, line) =>
      "## " +:+ file +:+ ":" +:+ line +:+ ": " +:+ name +:+ " failed: "
        +:+ collapse (error_summary message)
  | None => "::error::" +:+ name +:+ " failed"
  end.

(** What the loop body prints for a failure that has all it reads. *)
Lemma junit_failure_prints (testcase result : Element)
    (classname test_name message body : string) :
  attrib testcase !! "classname" = Some classname ->
  attrib testcase !! "name" = Some test_name ->
  attrib result !! "message" = Some message ->
  text result = Some body ->
  junit_failure' testcase result
  = ([headline (classname +:+ "." +:+ test_name) message body;
      "::group::Full error message"; body; "::endgroup"], inr tt).
Proof.
  intros Hc Hn Hm Ht. unfold junit_failure, getitem, headline.
  rewrite Hc, Hn, Hm, Ht. rewrite !bind_ret_l.
  cbn [find_location error_of lift bind fst snd app].
  rewrite sub_SPACES.
  destruct (find_location_str' body) as [[file line]|]; reflexivity.
Qed.

(** C6.  A failure of a test case prints one headline, with the location
    and the summary when a location was resolved and the location-less
    error directive otherwise, and in both cases the group that holds the
    raw body: its start, the body, its end. *)
Theorem failure_headline_and_group (testcase result : Element)
    (classname test_name message body : string) :
  attrib testcase !! "classname" = Some classname ->
  attrib testcase !! "name" = Some test_name ->
  attrib result !! "message" = Some message ->
  text result = Some body ->
  let name := classname +:+ "." +:+ test_name in
  exists first_line,
    junit_failure' testcase result
    = ([first_line; "::group::Full error message"; body; "::endgroup"],
       inr tt)
    /\ (forall file line,
           find_location_str' body = Some (file, line) ->
           first_line
           = "## " +:+ file +:+ ":" +:+ line +:+ ": " +:+ name
               +:+ " failed: " +:+ sub SPACES " " (error_summary message))
    /\ (find_location_str' body = None ->
        first_line = "::error::" +:+ name +:+ " failed").
Proof.
  intros Hc Hn Hm Ht name.
  exists (headline name message body). split.
  - now apply junit_failure_prints.
  - unfold headline. rewrite sub_SPACES.
    destruct (find_location_str' body) as [[f l]|]; split;
      try discriminate; try reflexivity.
    intros file line [= <- <-]. reflexivity.
Qed.

(** C1, as the code has it.  The summary is taken from the [message]
    attribute, whatever the body holds: the text before the last
    traceback marker of the attribute when it has one, the attribute
    itself otherwise; the annotation line of a located failure carries
    it with every run of whitespace collapsed into one space. *)
Theorem summary_from_message_attribute (testcase result : Element)
    (classname test_name message body file line : string) :
  attrib testcase !! "classname" = Some classname ->
  attrib testcase !! "name" = Some test_name ->
  attrib result !! "message" = Some message ->
  text result = Some body ->
  find_location_str' body = Some (file, line) ->
  exists summary,
    output (junit_failure' testcase result)
    = ["## " +:+ file +:+ ":" +:+ line +:+ ": " +:+ classname +:+ "."
         +:+ test_name +:+ " failed: " +:+ collapse summary;
       "::group::Full error message"; body; "::endgroup"]
    /\ sub SPACES " " summary = collapse summary
    /\ (forall before,
           last_occurrence traceback_marker message before ->
           summary = before)
    /\ (~ occurs traceback_marker message -> summary = message).
Proof.
  intros Hc Hn Hm Ht Hloc. exists (error_summary message).
  rewrite (junit_failure_prints _ _ _ _ _ _ Hc Hn Hm Ht).
  unfold headline. rewrite Hloc. cbn [output fst].
  rewrite append_assoc.
  split; [reflexivity |]. split; [apply sub_SPACES |].
  apply error_summary_spec.
Qed.

(** A failure whose processing raises stops the file and the scan. *)
Lemma junit_failure_aborts (root testcase result : Element) :
  tag testcase = "testcase" -> tag result = "failure" ->
  In testcase (children root) -> In result (children testcase) ->
  raises (junit_failure' testcase result) ->
  raises (junit_root' root)
  /\ (forall path, ET_parse path = inr root -> raises (_parse_junit_file' path))
  /\ (forall project path,
         In project PROJECT_LOCATIONS -> In path (junit_reports' project) ->
         ET_parse path = inr root ->
         raises parse_junit').
Proof.
  intros Htc Hres Hin_tc Hin_res Hraise.
  assert (Hroot : raises (junit_root' root)).
  { unfold junit_root. apply (for_raises _ _ testcase Hin_tc).
    unfold junit_testcase. rewrite Htc. cbn [String.eqb negb].
    apply (for_raises _ _ result Hin_res).
    unfold junit_result. rewrite Hres. exact Hraise. }
  assert (Hfile : forall path,
             ET_parse path = inr root -> raises (_parse_junit_file' path)).
  { intros path Hparse. unfold _parse_junit_file. rewrite Hparse.
    destruct Hroot as [e He]. exists e.
    unfold returned, bind, lift in *. cbn. exact He. }
  split; [exact Hroot |]. split; [exact Hfile |].
  intros project path Hproject Hpath Hparse. unfold parse_junit.
  apply raises_bind_r. intros _. apply raises_bind_l.
  apply (for_raises _ _ project Hproject).
  apply (for_raises _ _ path Hpath). apply Hfile. exact Hparse.
Qed.

(** C8.  A [failure] element without a [message] attribute makes the
    loop body raise before it prints anything, and the exception leaves
    [_parse_junit_file] and the whole scan: the failure is neither
    skipped nor printed without a summary.  With the other parts of the
    record present, the exception is the [TypeError] of
    [ERROR_MESSAGE.match(None)]. *)
Theorem failure_without_message_raises (root testcase result : Element) :
  attrib result !! "message" = None ->
  tag testcase = "testcase" -> tag result = "failure" ->
  In testcase (children root) -> In result (children testcase) ->
  (exists e, junit_failure' testcase result = ([], inl e))
  /\ (forall classname test_name body,
         attrib testcase !! "classname" = Some classname ->
         attrib testcase !! "name" = Some test_name ->
         text result = Some body ->
         junit_failure' testcase result = ([], inl match_on_None))
  /\ raises (junit_root' root)
  /\ (forall path, ET_parse path = inr root -> raises (_parse_junit_file' path))
  /\ (forall project path,
         In project PROJECT_LOCATIONS -> In path (junit_reports' project) ->
         ET_parse path = inr root ->
         raises parse_junit').
Proof.
  intros Hm Htc Hres Hin_tc Hin_res.
  assert (Hraise : exists e, junit_failure' testcase result = ([], inl e)).
  { unfold junit_failure, getitem. rewrite Hm.
    destruct (attrib testcase !! "classname") as [c|];
      [| eexists; reflexivity].
    destruct (attrib testcase !! "name") as [n|]; [| eexists; reflexivity].
    destruct (text result) as [body|]; eexists; reflexivity. }
  split; [exact Hraise |]. split.
  - intros classname test_name body Hc Hn Ht.
    unfold junit_failure, getitem. rewrite Hm, Hc, Hn, Ht. reflexivity.
  - apply junit_failure_aborts with (testcase := testcase) (result := result);
      auto.
    destruct Hraise as [e He]. exists e. rewrite He. reflexivity.
Qed.

(** C10.  A [failure] element without a body ([result.text] is [None])
    makes the loop body raise before it prints anything, and the
    exception leaves [_parse_junit_file] and the whole scan.  With the
    attributes of the test case present, the exception is the one
    [find_location] raises on [None]. *)
Theorem failure_without_body_raises (root testcase result : Element) :
  text result = None ->
  tag testcase = "testcase" -> tag result = "failure" ->
  In testcase (children root) -> In result (children testcase) ->
  (exists e, junit_failure' testcase result = ([], inl e))
  /\ (forall classname test_name,
         attrib testcase !! "classname" = Some classname ->
         attrib testcase !! "name" = Some test_name ->
         find_location os_path_exists (text result) = inl search_on_None
         /\ junit_failure' testcase result = ([], inl search_on_None))
  /\ raises (junit_root' root)
  /\ (forall path, ET_parse path = inr root -> raises (_parse_junit_file' path))
  /\ (forall project path,
         In project PROJECT_LOCATIONS -> In path (junit_reports' project) ->
         ET_parse path = inr root ->
         raises parse_junit').
Proof.
  intros Ht Htc Hres Hin_tc Hin_res.
  assert (Hraise : exists e, junit_failure' testcase result = ([], inl e)).
  { unfold junit_failure, getitem. rewrite Ht.
    destruct (attrib testcase !! "classname") as [c|];
      [| eexists; reflexivity].
    destruct (attrib testcase !! "name") as [n|]; eexists; reflexivity. }
  split; [exact Hraise |]. split.
  - intros classname test_name Hc Hn. rewrite Ht. split; [reflexivity |].
    unfold junit_failure, getitem. rewrite Hc, Hn, Ht. reflexivity.
  - apply junit_failure_aborts with (testcase := testcase) (result := result);
      auto.
    destruct Hraise as [e He]. exists e. rewrite He. reflexivity.
Qed.

(** The report with only what the scan looks at: the [testcase] children
    of the root and, in each, its [failure] children. *)
Definition is_tag (name : string) (e : Element) : bool :=
  String.eqb (tag e) name.

Definition only_failures (testcase : Element) : Element :=
  MkElement (tag testcase) (attrib testcase) (text testcase)
    (List.filter (is_tag "failure") (children testcase)).

Definition only_testcases (root : Element) : Element :=
  MkElement (tag root) (attrib root) (text root)
    (map only_failures (List.filter (is_tag "testcase") (children root))).

Lemma junit_result_other (testcase result : Element) :
  is_tag "failure" result = false -> junit_result' testcase result = ret tt.
Proof. unfold is_tag, junit_result. now intros ->. Qed.

Lemma junit_testcase_other (testcase : Element) :
  is_tag "testcase" testcase = false -> junit_testcase' testcase = ret tt.
Proof. unfold is_tag, junit_testcase. now intros ->. Qed.

Lemma junit_testcase_only_failures (testcase : Element) :
  junit_testcase' (only_failures testcase) = junit_testcase' testcase.
Proof.
  unfold junit_testcase. cbn [tag only_failures children].
  destruct (negb (tag testcase =? "testcase")%string); [reflexivity |].
  rewrite for_filter by (intros x Hx; now apply junit_result_other).
  apply for_ext. intros result _. unfold junit_result, junit_failure.
  reflexivity.
Qed.

(** C9.  A child of the root that is not a [testcase], and a child of a
    [testcase] that is not a [failure], print nothing and raise nothing;
    the scan of a report is the scan of the report without them. *)
Theorem other_elements_ignored (root : Element) :
  (forall child,
      tag child <> "testcase" -> junit_testcase' child = ([], inr tt))
  /\ (forall testcase child,
         tag child <> "failure" ->
         junit_result' testcase child = ([], inr tt))
  /\ junit_root' (only_testcases root) = junit_root' root.
Proof.
  split; [| split].
  - intros child Hc. apply junit_testcase_other. unfold is_tag.
    now apply String.eqb_neq.
  - intros testcase child Hc. apply junit_result_other. unfold is_tag.
    now apply String.eqb_neq.
  - unfold junit_root. cbn [only_testcases children].
    rewrite for_map.
    rewrite (for_ext _ _ junit_testcase')
      by (intros x _; apply junit_testcase_only_failures).
    apply for_filter. intros x Hx. now apply junit_testcase_other.
Qed.

Lemma join_build_dir (project directory : string) :
  In project PROJECT_LOCATIONS -> starts_with_sep directory = false ->
  os_path_join project [directory] = project +:+ "/" +:+ directory.
Proof.
  intros Hp Hd. unfold os_path_join. cbn [fold_left]. unfold join_step.
  rewrite Hd. simpl in Hp.
  repeat (destruct Hp as [<-|Hp]; [reflexivity |]). contradiction.
Qed.

(** C2, as the code has it.  For a project root, the JUnit scan discovers
    the entries of the directory [<project>/build/test-results/test]
    itself whose name matches [TEST-*.xml], in the order the directory
    lists them, and nothing else: the directory is not searched
    recursively. *)
Theorem junit_reports_are_direct_entries (project : string) :
  In project PROJECT_LOCATIONS ->
  let directory := project +:+ "/build/test-results/test" in
  junit_reports' project
  = map (fun name => directory +:+ "/" +:+ name)
        (List.filter (matches TEST_xml) (scandir directory))
  /\ (forall path,
         In path (junit_reports' project)
         <-> exists name middle,
               In name (scandir directory)
               /\ name = "TEST-" +:+ middle +:+ ".xml"
               /\ path = directory +:+ "/" +:+ name).
Proof.
  intros Hp directory. unfold junit_reports, glob.
  rewrite (join_build_dir project "build/test-results/test" Hp eq_refl).
  fold directory. split; [reflexivity |].
  intros path. rewrite in_map_iff. split.
  - intros (name & <- & Hin). apply filter_In in Hin.
    destruct Hin as [Hin Hmatch].
    apply matches_TEST_xml in Hmatch. destruct Hmatch as [middle Hm].
    exists name, middle. auto.
  - intros (name & middle & Hin & Hname & ->). exists name.
    split; [reflexivity |]. apply filter_In. split; [exact Hin |].
    apply matches_TEST_xml. exists middle. exact Hname.
Qed.

(** C7.  An [error] element of a Checkstyle report prints one line: the
    severity, the [name] of the enclosing [file] element made relative to
    the working directory, the line, the [column] attribute as it is or
    [1] when the element has none, and the message with its whitespace
    collapsed. *)
Theorem checkstyle_error_line (file error : Element)
    (file_name severity line message : string) :
  attrib file !! "name" = Some file_name -> file_name <> "" ->
  attrib error !! "severity" = Some severity ->
  attrib error !! "line" = Some line ->
  attrib error !! "message" = Some message ->
  exists column,
    checkstyle_error' file error
    = ([severity +:+ " " +:+ relpath_from_cwd file_name +:+ ":" +:+ line
          +:+ ":" +:+ column +:+ ": " +:+ collapse message], inr tt)
    /\ (forall given, attrib error !! "column" = Some given -> column = given)
    /\ (attrib error !! "column" = None -> column = "1")
    /\ sub SPACES " " message = collapse message.
Proof.
  intros Hname Hnonempty Hs Hl Hm.
  exists (default "1" (attrib error !! "column")).
  split; [| split; [| split]].
  - unfold checkstyle_error, getitem, os_path_relpath.
    rewrite Hname, Hs, Hl, Hm.
    apply String.eqb_neq in Hnonempty.
    rewrite bind_ret_l, Hnonempty, !bind_ret_l, sub_SPACES. reflexivity.
  - intros given ->. reflexivity.
  - intros ->. reflexivity.
  - apply sub_SPACES.
Qed.

End Scans.

(** * Concrete runs *)

Definition NL : string := String LF "".
Definition HT : string := String TAB "".

(** A file system that holds the listed paths. *)
Definition disk (paths : list string) (path : string) : bool :=
  existsb (String.eqb path) paths.

Definition repo : string -> bool :=
  disk ["projects/core/src/test/resources/test-rom/spec/a_spec.lua";
        "projects/core/src/test/java/dan200/Foo.java"].

Definition attrs (l : list (string * string)) : gmap string string :=
  list_to_map l.

Definition a_testcase (results : list Element) : Element :=
  MkElement "testcase"
    (attrs [("classname", "dan200.FooTest"); ("name", "runs")]) None results.

(** A Java exception that wraps a Lua error: the wrapped location comes
    first, then the Lua traceback, then the Java frames. *)
Definition wrapped_message : string :=
  "java.lang.IllegalStateException: /test-rom/spec/a_spec.lua:12: boom"
    +:+ NL +:+ "stack traceback:"
    +:+ NL +:+ HT +:+ "/test-rom/mcfly.lua:5: in upvalue"
    +:+ NL +:+ HT +:+ "at dan200.Foo.run(Foo.java:7)".

Definition lua_message : string :=
  "assertion failed" +:+ NL +:+ "stack traceback:"
    +:+ NL +:+ HT +:+ "/test-rom/spec/a_spec.lua:12: in function <10>"
    +:+ NL +:+ HT +:+ "at dan200.Foo.run(Foo.java:7)".

Definition frames_message : string :=
  "java.lang.AssertionError: expected"
    +:+ NL +:+ HT +:+ "at org.junit.Assert.fail(Assert.java:89)"
    +:+ NL +:+ HT +:+ "at dan200.Foo.run(Foo.java:7)"
    +:+ NL +:+ HT +:+ "at dan200.Bar.go(Bar.java:3)".


Definition a_failure (message body : string) : Element :=
  MkElement "failure" (attrs [("message", message)]) (Some body) [].

Example find_location_lua :
  find_location repo (Some lua_message)
  = inr (Some ("projects/core/src/test/resources/test-rom/spec/a_spec.lua",
               "12")).
Proof. vm_compute. reflexivity. Qed.

Example find_location_frames :
  find_location repo (Some frames_message)
  = inr (Some ("projects/core/src/test/java/dan200/Foo.java", "7")).
Proof. vm_compute. reflexivity. Qed.

(** *** find_file *)

Example find_file_strips :
  find_file repo "///test-rom/spec/a_spec.lua"
  = Some "projects/core/src/test/resources/test-rom/spec/a_spec.lua".
Proof. vm_compute. reflexivity. Qed.

(** The declared order decides, not the length of the result. *)
Example find_file_declared_order :
  find_file
    (disk ["projects/core/src/main/java/x.lua";
           "projects/core-api/src/main/resources/data/computercraft/lua/x.lua"])
    "/x.lua"
  = Some "projects/core-api/src/main/resources/data/computercraft/lua/x.lua".
Proof. vm_compute. reflexivity. Qed.

(** *** find_location *)

Lemma lua_match_wins_or_falls_through_witness :
  exists location,
    search LUA_ERROR_LOCATION lua_message = Some location
    /\ find_file repo (group location 1)
       = Some "projects/core/src/test/resources/test-rom/spec/a_spec.lua"
    /\ find_location repo (Some lua_message)
       = inr (Some
                ("projects/core/src/test/resources/test-rom/spec/a_spec.lua",
                 group location 2)).
Proof.
  eexists. split; [vm_compute; reflexivity |].
  split; [vm_compute; reflexivity |].
  eapply (proj1 (lua_match_wins_or_falls_through repo lua_message _ _)).
  vm_compute. reflexivity.
  Unshelve. vm_compute. reflexivity.
Defined.

(** C4 as stated fails on a Java exception that wraps a Lua error: the
    Lua-style line of the traceback resolves to no file, a Java frame
    does, and yet the result is the location of the wrapped error, which
    no Java frame gives. *)
Lemma wrapped_lua_before_java_frame :
  exists location,
    search LUA_ERROR_LOCATION wrapped_message = Some location
    /\ group location 1 = "/test-rom/mcfly.lua"
    /\ find_file repo (group location 1) = None
    /\ findall2 JAVA_ERROR_LOCATION wrapped_message = [("dan200.Foo", "7")]
    /\ first_resolvable repo (findall2 JAVA_ERROR_LOCATION wrapped_message)
         ("projects/core/src/test/java/dan200/Foo.java", "7")
    /\ find_location repo (Some wrapped_message)
       = inr (Some
                ("projects/core/src/test/resources/test-rom/spec/a_spec.lua",
                 "12"))
    /\ ~ (exists found,
             first_resolvable repo
               (findall2 JAVA_ERROR_LOCATION wrapped_message) found
             /\ find_location repo (Some wrapped_message)
                = inr (Some found)).
Proof.
  eexists. split; [vm_compute; reflexivity |].
  split; [vm_compute; reflexivity |].
  split; [vm_compute; reflexivity |].
  split; [vm_compute; reflexivity |].
  assert (Hframe :
            first_resolvable repo
              (findall2 JAVA_ERROR_LOCATION wrapped_message)
              ("projects/core/src/test/java/dan200/Foo.java", "7")).
  { apply first_frame_some. vm_compute. reflexivity. }
  split; [exact Hframe |].
  split; [vm_compute; reflexivity |].
  intros (found & Hfound & Hloc).
  apply first_frame_some in Hfound.
  assert (Hsame : found = ("projects/core/src/test/java/dan200/Foo.java", "7")).
  { apply first_frame_some in Hframe. congruence. }
  subst found. vm_compute in Hloc. discriminate.
Qed.


(** *** The JUnit scan *)

Definition lua_body : string :=
  HT +:+ "/test-rom/spec/a_spec.lua:12: boom" +:+ traceback_marker.

Definition a_report (results : list Element) : Element :=
  MkElement "testsuite" (attrs [("name", "dan200.FooTest")]) None
    [MkElement "properties" (attrs []) None [];
     a_testcase results;
     MkElement "system-out" (attrs []) (Some "log") []].

Definition parse_to (root : Element) (path : string) : exn + Element :=
  inr root.

(** The build-output directory of [projects/core] with a report in it
    and, next to it, files the pattern does not match. *)
Definition scandir_flat (directory : string) : list string :=
  if String.eqb directory "projects/core/build/test-results/test"
  then ["binary"; "TEST-dan200.FooTest.xml"; "TEST-notes.txt"]
  else [].

(** The same directory with the report one level down. *)
Definition scandir_nested (directory : string) : list string :=
  if String.eqb directory "projects/core/build/test-results/test"
  then ["sub"]
  else if String.eqb directory "projects/core/build/test-results/test/sub"
  then ["TEST-dan200.FooTest.xml"]
  else [].

Example parse_junit_flat :
  parse_junit repo scandir_flat
    (parse_to (a_report [a_failure "assertion failed" lua_message]))
  = (["::add-matcher::.github/matchers/junit.json";
      "## projects/core/src/test/resources/test-rom/spec/a_spec.lua:12: "
        +:+ "dan200.FooTest.runs failed: assertion failed";
      "::group::Full error message";
      lua_message;
      "::endgroup";
      "::remove-matcher owner=junit::"], inr tt).
Proof. vm_compute. reflexivity. Qed.

Lemma failure_headline_and_group_witness :
  exists first_line,
    junit_failure repo (a_testcase [])
      (a_failure "assertion failed" lua_message)
    = ([first_line; "::group::Full error message"; lua_message;
        "::endgroup"], inr tt)
    /\ (forall file line,
           find_location_str repo lua_message = Some (file, line) ->
           first_line
           = "## " +:+ file +:+ ":" +:+ line +:+ ": "
               +:+ ("dan200.FooTest" +:+ "." +:+ "runs") +:+ " failed: "
               +:+ sub SPACES " " (error_summary "assertion failed"))
    /\ (find_location_str repo lua_message = None ->
        first_line
        = "::error::" +:+ ("dan200.FooTest" +:+ "." +:+ "runs") +:+ " failed").
Proof.
  apply (failure_headline_and_group repo (a_testcase [])
           (a_failure "assertion failed" lua_message)
           "dan200.FooTest" "runs" "assertion failed" lua_message);
    vm_compute; reflexivity.
Defined.

(** C1 as stated fails on a failure whose body ends with the traceback
    marker while its [message] attribute has none: the line printed
    carries the attribute, not the text captured from the body. *)
Lemma summary_not_from_body :
  let captured := HT +:+ "/test-rom/spec/a_spec.lua:12: boom" in
  let result := a_failure "assertion failed" lua_body in
  lua_body = captured +:+ traceback_marker
  /\ last_occurrence traceback_marker lua_body captured
  /\ attrib result !! "message" = Some "assertion failed"
  /\ output (junit_failure repo (a_testcase [result]) result)
     = ["## projects/core/src/test/resources/test-rom/spec/a_spec.lua:12: "
          +:+ "dan200.FooTest.runs failed: assertion failed";
        "::group::Full error message"; lua_body; "::endgroup"]
  /\ output (junit_failure repo (a_testcase [result]) result)
     <> ["## projects/core/src/test/resources/test-rom/spec/a_spec.lua:12: "
           +:+ "dan200.FooTest.runs failed: " +:+ collapse captured;
         "::group::Full error message"; lua_body; "::endgroup"].
Proof.
  intros captured result. split; [reflexivity |]. split.
  - pose proof (match_ERROR_MESSAGE lua_body) as H.
    vm_compute in H. vm_compute. exact H.
  - split; [vm_compute; reflexivity |].
    split; [vm_compute; reflexivity |].
    vm_compute. discriminate.
Qed.

Lemma summary_from_message_attribute_witness :
  exists summary,
    output (junit_failure repo (a_testcase [])
              (a_failure ("a  b" +:+ traceback_marker +:+ "c") lua_body))
    = ["## " +:+ "projects/core/src/test/resources/test-rom/spec/a_spec.lua"
         +:+ ":" +:+ "12" +:+ ": " +:+ "dan200.FooTest" +:+ "."
         +:+ "runs" +:+ " failed: " +:+ collapse summary;
       "::group::Full error message"; lua_body; "::endgroup"]
    /\ sub SPACES " " summary = collapse summary
    /\ (forall before,
           last_occurrence traceback_marker
             ("a  b" +:+ traceback_marker +:+ "c") before ->
           summary = before)
    /\ (~ occurs traceback_marker ("a  b" +:+ traceback_marker +:+ "c") ->
        summary = "a  b" +:+ traceback_marker +:+ "c").
Proof.
  apply (summary_from_message_attribute repo (a_testcase [])
           (a_failure ("a  b" +:+ traceback_marker +:+ "c") lua_body)
           "dan200.FooTest" "runs");
    vm_compute; reflexivity.
Defined.

(** The summary of that message, and the line it is printed on. *)
Example summary_before_marker :
  error_summary ("a  b" +:+ traceback_marker +:+ "c") = "a  b"
  /\ collapse "a  b" = "a b".
Proof. split; vm_compute; reflexivity. Qed.

Lemma junit_reports_are_direct_entries_witness :
  junit_reports scandir_flat "projects/core"
  = map (fun name =>
           ("projects/core" +:+ "/build/test-results/test") +:+ "/" +:+ name)
        (List.filter (matches TEST_xml)
           (scandir_flat ("projects/core" +:+ "/build/test-results/test")))
  /\ (forall path,
         In path (junit_reports scandir_flat "projects/core")
         <-> exists name middle,
               In name
                 (scandir_flat ("projects/core" +:+ "/build/test-results/test"))
               /\ name = "TEST-" +:+ middle +:+ ".xml"
               /\ path
                  = ("projects/core" +:+ "/build/test-results/test")
                      +:+ "/" +:+ name).
Proof.
  apply (junit_reports_are_direct_entries scandir_flat "projects/core").
  simpl. auto.
Defined.

Example junit_reports_flat :
  junit_reports scandir_flat "projects/core"
  = ["projects/core/build/test-results/test/TEST-dan200.FooTest.xml"].
Proof. vm_compute. reflexivity. Qed.

(** C2 as stated fails on a report that lies in a subdirectory of the
    build-output directory: its name matches, parsing it would print the
    failure it holds, and the scan prints the two matcher directives
    only. *)
Lemma nested_report_not_scanned :
  let root := a_report [a_failure "assertion failed" lua_message] in
  let nested :=
    "projects/core/build/test-results/test/sub/TEST-dan200.FooTest.xml" in
  In "sub" (scandir_nested "projects/core/build/test-results/test")
  /\ In "TEST-dan200.FooTest.xml"
       (scandir_nested "projects/core/build/test-results/test/sub")
  /\ matches TEST_xml "TEST-dan200.FooTest.xml" = true
  /\ output (_parse_junit_file repo (parse_to root) nested) <> []
  /\ (forall project,
         In project PROJECT_LOCATIONS ->
         ~ In nested (junit_reports scandir_nested project))
  /\ parse_junit repo scandir_nested (parse_to root)
     = (["::add-matcher::.github/matchers/junit.json";
         "::remove-matcher owner=junit::"], inr tt).
Proof.
  intros root nested.
  split; [left; reflexivity |]. split; [left; reflexivity |].
  split; [vm_compute; reflexivity |].
  split; [vm_compute; discriminate |].
  split; [| vm_compute; reflexivity].
  intros project Hp. simpl in Hp.
  repeat (destruct Hp as [<-|Hp]; [vm_compute; tauto |]). contradiction.
Qed.

Definition no_message : Element :=
  MkElement "failure" (attrs [("type", "java.lang.AssertionError")])
    (Some lua_message) [].

Definition no_body : Element :=
  MkElement "failure" (attrs [("message", "assertion failed")]) None [].

Lemma failure_without_message_raises_witness :
  (exists e, junit_failure repo (a_testcase [no_message]) no_message
             = ([], inl e))
  /\ junit_failure repo (a_testcase [no_message]) no_message
     = ([], inl match_on_None)
  /\ raises (junit_root repo (a_report [no_message]))
  /\ raises (_parse_junit_file repo (parse_to (a_report [no_message]))
               "projects/core/build/test-results/test/TEST-dan200.FooTest.xml")
  /\ raises (parse_junit repo scandir_flat
               (parse_to (a_report [no_message]))).
Proof.
  destruct (failure_without_message_raises repo scandir_flat
              (parse_to (a_report [no_message]))
              (a_report [no_message]) (a_testcase [no_message]) no_message)
    as (H1 & H2 & H3 & H4 & H5).
  - vm_compute. reflexivity.
  - reflexivity.
  - reflexivity.
  - simpl. auto.
  - simpl. auto.
  - split; [exact H1 |]. split.
    + apply (H2 "dan200.FooTest" "runs" lua_message);
        vm_compute; reflexivity.
    + split; [exact H3 |]. split.
      * apply H4. reflexivity.
      * apply (H5 "projects/core"
                 "projects/core/build/test-results/test/TEST-dan200.FooTest.xml").
        -- simpl. auto.
        -- vm_compute. auto.
        -- reflexivity.
Defined.

(** The scan stops at the failure without a message: the matcher is
    added, nothing is printed for the failure, the matcher is not
    removed. *)
Example parse_junit_no_message :
  parse_junit repo scandir_flat (parse_to (a_report [no_message]))
  = (["::add-matcher::.github/matchers/junit.json"], inl match_on_None).
Proof. vm_compute. reflexivity. Qed.

Lemma failure_without_body_raises_witness :
  (exists e, junit_failure repo (a_testcase [no_body]) no_body = ([], inl e))
  /\ (find_location repo (text no_body) = inl search_on_None
      /\ junit_failure repo (a_testcase [no_body]) no_body
         = ([], inl search_on_None))
  /\ raises (junit_root repo (a_report [no_body]))
  /\ raises (_parse_junit_file repo (parse_to (a_report [no_body]))
               "projects/core/build/test-results/test/TEST-dan200.FooTest.xml")
  /\ raises (parse_junit repo scandir_flat (parse_to (a_report [no_body]))).
Proof.
  destruct (failure_without_body_raises repo scandir_flat
              (parse_to (a_report [no_body]))
              (a_report [no_body]) (a_testcase [no_body]) no_body)
    as (H1 & H2 & H3 & H4 & H5).
  - reflexivity.
  - reflexivity.
  - reflexivity.
  - simpl. auto.
  - simpl. auto.
  - split; [exact H1 |]. split.
    + apply (H2 "dan200.FooTest" "runs"); vm_compute; reflexivity.
    + split; [exact H3 |]. split.
      * apply H4. reflexivity.
      * apply (H5 "projects/core"
                 "projects/core/build/test-results/test/TEST-dan200.FooTest.xml").
        -- simpl. auto.
        -- vm_compute. auto.
        -- reflexivity.
Defined.

Example parse_junit_no_body :
  parse_junit repo scandir_flat (parse_to (a_report [no_body]))
  = (["::add-matcher::.github/matchers/junit.json"], inl search_on_None).
Proof. vm_compute. reflexivity. Qed.

(** A test case reported as an error, not as a failure. *)
Definition an_error : Element :=
  MkElement "error" (attrs [("message", "boom")]) (Some lua_message) [].

Lemma other_elements_ignored_witness :
  junit_testcase repo (MkElement "system-out" (attrs []) (Some "log") [])
  = ([], inr tt)
  /\ junit_result repo (a_testcase [an_error]) an_error = ([], inr tt)
  /\ junit_root repo (only_testcases (a_report [an_error]))
     = junit_root repo (a_report [an_error]).
Proof.
  destruct (other_elements_ignored repo (a_report [an_error]))
    as (H1 & H2 & H3).
  split; [apply H1; discriminate |].
  split; [apply H2; discriminate | exact H3].
Defined.

Example junit_root_error_only :
  junit_root repo (a_report [an_error]) = ([], inr tt).
Proof. vm_compute. reflexivity. Qed.

(** *** The Checkstyle scan *)

Definition a_checkstyle_file (errors : list Element) : Element :=
  MkElement "file" (attrs [("name", "A.java")]) None errors.

Definition an_issue : Element :=
  MkElement "error"
    (attrs [("severity", "error"); ("line", "3"); ("message", "bad")])
    None [].

Definition an_issue_at_column : Element :=
  MkElement "error"
    (attrs [("severity", "warning"); ("line", "3"); ("column", "14");
            ("message", "bad" +:+ NL +:+ "  style")])
    None [].

(** Relative names stay as they are. *)
Definition relpath_here (path : string) : string := path.

Lemma checkstyle_error_line_witness :
  exists column,
    checkstyle_error relpath_here (a_checkstyle_file [an_issue]) an_issue
    = (["error" +:+ " " +:+ relpath_here "A.java" +:+ ":" +:+ "3"
          +:+ ":" +:+ column +:+ ": " +:+ collapse "bad"], inr tt)
    /\ (forall given, attrib an_issue !! "column" = Some given ->
                      column = given)
    /\ (attrib an_issue !! "column" = None -> column = "1")
    /\ sub SPACES " " "bad" = collapse "bad".
Proof.
  apply (checkstyle_error_line relpath_here (a_checkstyle_file [an_issue])
           an_issue "A.java" "error" "3" "bad");
    try (vm_compute; reflexivity).
  discriminate.
Defined.

Example checkstyle_root_lines :
  checkstyle_root relpath_here
    (MkElement "checkstyle" (attrs [("version", "10.3")]) None
       [a_checkstyle_file [an_issue; an_issue_at_column]])
  = (["error A.java:3:1: bad"; "warning A.java:3:14: bad style"], inr tt).
Proof. vm_compute. reflexivity. Qed.

(** * Further properties *)

(** ** What a match holds *)

Fixpoint all_in (p : ascii -> bool) (w : string) : bool :=
  match w with
  | EmptyString => true
  | String c w' => p c && all_in p w'
  end.

(** The text [w] a pattern can consume, and the groups it then adds. *)
Fixpoint denotes (r : regex) (w : string) (caps caps' : captures) : Prop :=
  match r with
  | Eps | BoS | Bol | Eol | EoS => w = "" /\ caps' = caps
  | Lit c => w = String c "" /\ caps' = caps
  | Cls p => exists x, p x = true /\ w = String x "" /\ caps' = caps
  | Star p => all_in p w = true /\ caps' = caps
  | Plus p => w <> "" /\ all_in p w = true /\ caps' = caps
  | Seq r1 r2 =>
      exists w1 w2 caps1,
        w = w1 +:+ w2 /\ denotes r1 w1 caps caps1 /\ denotes r2 w2 caps1 caps'
  | Group n r' =>
      exists caps1, denotes r' w caps caps1 /\ caps' = (n, w) :: caps1
  end.

Lemma star_sound (p : ascii -> bool) (k : cursor -> option outcome)
    (s : string) :
  forall (pv : option ascii) (i : nat) (o : outcome),
    star p k pv s i = Some o ->
    exists w cur',
      s = w +:+ rest cur' /\ pos cur' = i + String.length w
      /\ all_in p w = true /\ k cur' = Some o.
Proof.
  induction s as [|c s IH]; intros pv i o; cbn [star].
  - intros H. exists "", (Cursor pv "" i). cbn. auto.
  - assert (Hhere : k (Cursor pv (String c s) i) = Some o ->
                    exists w cur',
                      String c s = w +:+ rest cur'
                      /\ pos cur' = i + String.length w
                      /\ all_in p w = true /\ k cur' = Some o).
    { intros H. exists "", (Cursor pv (String c s) i). cbn. auto. }
    destruct (p c) eqn:Hc; [| exact Hhere].
    destruct (star p k (Some c) s (S i)) as [o'|] eqn:Hs; [| exact Hhere].
    intros [= <-]. destruct (IH _ _ _ Hs) as (w & cur' & -> & Hpos & Hw & Hk).
    exists (String c w), cur'. cbn [all_in String.length].
    rewrite Hc, Hw. repeat split; auto. lia.
Qed.

Lemma step1_sound (p : ascii -> bool) (k : cont) (cur : cursor)
    (caps : captures) (o : outcome) :
  step1 p k cur caps = Some o ->
  exists x cur',
    p x = true /\ rest cur = String x (rest cur') /\ pos cur' = S (pos cur)
    /\ k cur' caps = Some o.
Proof.
  unfold step1. destruct (rest cur) as [|x s'] eqn:Hr; [discriminate |].
  destruct (p x) eqn:Hx; [| discriminate].
  intros H. exists x, (Cursor (Some x) s' (S (pos cur))). cbn. auto.
Qed.

(** The matcher only reports what the pattern denotes: a success consumed
    a text [w] of the pattern from the cursor and handed the groups of
    [w] to what follows. *)
Lemma exec_sound (r : regex) :
  forall (k : cont) (cur : cursor) (caps : captures) (o : outcome),
    exec r k cur caps = Some o ->
    exists w cur' caps',
      rest cur = w +:+ rest cur' /\ pos cur' = pos cur + String.length w
      /\ denotes r w caps caps' /\ k cur' caps' = Some o.
Proof.
  induction r as [|c|p|p|p|r1 IH1 r2 IH2|n r IH| | | |];
    intros k cur caps o; cbn [exec denotes].
  - intros H. exists "", cur, caps. cbn. repeat split; auto.
  - intros H. apply step1_sound in H.
    destruct H as (x & cur' & Hx & Hr & Hp & Hk).
    apply Ascii.eqb_eq in Hx. subst x.
    exists (String c ""), cur', caps. cbn. repeat split; auto. lia.
  - intros H. apply step1_sound in H.
    destruct H as (x & cur' & Hx & Hr & Hp & Hk).
    exists (String x ""), cur', caps. cbn. repeat split; eauto. lia.
  - unfold star_at. intros H. apply star_sound in H.
    destruct H as (w & cur' & Hr & Hp & Hw & Hk).
    exists w, cur', caps. auto.
  - intros H. apply step1_sound in H.
    destruct H as (x & cur1 & Hx & Hr & Hp & Hk).
    unfold star_at in Hk. apply star_sound in Hk.
    destruct Hk as (w & cur' & Hr' & Hp' & Hw & Hk).
    exists (String x w), cur', caps. cbn [all_in String.length].
    rewrite Hr, Hr', Hx, Hw, Hp', Hp.
    split; [reflexivity |]. split; [lia |].
    split; [| exact Hk]. split; [discriminate |]. auto.
  - intros H. apply IH1 in H.
    destruct H as (w1 & cur1 & caps1 & Hr1 & Hp1 & Hd1 & H).
    apply IH2 in H. destruct H as (w2 & cur' & caps' & Hr2 & Hp2 & Hd2 & Hk).
    exists (w1 +:+ w2), cur', caps'.
    rewrite Hr1, Hr2, append_assoc, length_append.
    repeat split; auto; [lia |]. exists w1, w2, caps1. auto.
  - intros H. apply IH in H.
    destruct H as (w & cur' & caps1 & Hr & Hp & Hd & Hk).
    replace (pos cur' - pos cur) with (String.length w) in Hk by lia.
    rewrite Hr, take_str_append in Hk.
    exists w, cur', ((n, w) :: caps1). repeat split; eauto.
  - destruct (prev cur); [discriminate |]. intros H.
    exists "", cur, caps. cbn. repeat split; auto.
  - destruct (at_line_start cur); [| discriminate]. intros H.
    exists "", cur, caps. cbn. repeat split; auto.
  - destruct (at_line_end cur); [| discriminate]. intros H.
    exists "", cur, caps. cbn. repeat split; auto.
  - destruct (rest cur) eqn:Hr; [| discriminate]. intros H.
    exists "", cur, caps. cbn. rewrite Hr. repeat split; auto.
Qed.

Lemma match_at_sound (r : regex) (cur : cursor) (m : Match) :
  match_at r cur = Some m ->
  exists w after,
    rest cur = w +:+ after /\ denotes r w [] (m_groups m)
    /\ m_text m = w /\ m_start m = pos cur
    /\ m_end m = pos cur + String.length w.
Proof.
  unfold match_at.
  destruct (exec r (fun cur' caps => Some (cur', caps)) cur [])
    as [[cur' caps]|] eqn:H; [| discriminate].
  intros [= <-]. apply exec_sound in H.
  destruct H as (w & cur1 & caps1 & Hr & Hp & Hd & [= <- <-]).
  exists w, (rest cur1). cbn [m_groups m_text m_start m_end].
  replace (pos cur1 - pos cur) with (String.length w) by lia.
  rewrite Hr, take_str_append. auto.
Qed.

Lemma search_from_sound (r : regex) (s : string) :
  forall (pv : option ascii) (i : nat) (m : Match),
    search_from r pv s i = Some m ->
    exists cur, match_at r cur = Some m.
Proof.
  induction s as [|c s IH]; intros pv i m; cbn [search_from];
    destruct (match_at r (Cursor pv _ i)) as [m'|] eqn:H.
  - intros [= <-]. eauto.
  - discriminate.
  - intros [= <-]. eauto.
  - apply IH.
Qed.

Lemma scan_sound (r : regex) (s : string) :
  forall (pv : option ascii) (i skip : nat) (m : Match),
    In m (scan r pv s i skip) -> exists cur, match_at r cur = Some m.
Proof.
  induction s as [|c s IH]; intros pv i skip m; destruct skip as [|skip];
    cbn [scan]; try contradiction.
  - destruct (match_at r (Cursor pv "" i)) as [m'|] eqn:H; [| contradiction].
    intros [<-|[]]. eauto.
  - destruct (match_at r (Cursor pv (String c s) i)) as [m'|] eqn:H.
    + intros [<-|Hin]; [eauto | eapply IH; exact Hin].
    + apply IH.
  - apply IH.
Qed.

Lemma denotes_lit (t : string) :
  forall (w : string) (caps caps' : captures),
    denotes (lit t) w caps caps' -> w = t /\ caps' = caps.
Proof.
  induction t as [|c t IH]; intros w caps caps'; cbn [lit denotes].
  - auto.
  - intros (w1 & w2 & caps1 & -> & [-> ->] & H).
    apply IH in H. destruct H as [-> ->]. auto.
Qed.

(** A non-empty run of decimal digits. *)
Definition numeral (l : string) : Prop :=
  l <> "" /\ all_in is_digit l = true.

(** The characters of [[\w./-]] and of [[\w.]]. *)
Definition path_char (c : ascii) : bool := is_word c || one_of "./-" c.
Definition class_char (c : ascii) : bool := is_word c || one_of "." c.

(** The part [(/[\w./-]+):(\d+):] that ends the two Lua patterns. *)
Lemma denotes_location (w : string) (caps caps' : captures) :
  denotes
    (Group 1 (Lit "/" +> Plus (fun c => is_word c || one_of "./-" c))
       +> Lit ":" +> Group 2 (Plus is_digit) +> Lit ":") w caps caps' ->
  exists path line,
    caps' = (2, line) :: (1, String "/" path) :: caps
    /\ path <> "" /\ all_in path_char path = true /\ numeral line.
Proof.
  cbn [denotes].
  intros (w1 & w2 & caps1 & -> & (caps2 & Hg1 & ->) & H).
  destruct Hg1 as (s1 & path & caps3 & -> & [-> ->] & Hpath & Hpc & ->).
  destruct H as (w3 & w4 & caps4 & -> & [-> ->] & H).
  destruct H as (line & w5 & caps5 & -> & (caps6 & Hline & ->) & [-> ->]).
  destruct Hline as (Hne & Hd & ->).
  exists path, line. repeat split; auto.
Qed.

Lemma LUA_ERROR_LOCATION_groups (m : Match) (cur : cursor) :
  match_at LUA_ERROR_LOCATION cur = Some m ->
  exists path,
    group m 1 = String "/" path /\ path <> ""
    /\ all_in path_char path = true /\ numeral (group m 2).
Proof.
  intros H. apply match_at_sound in H.
  destruct H as (w & after & _ & Hd & _). unfold LUA_ERROR_LOCATION in Hd.
  cbn [denotes] in Hd.
  destruct Hd as (w1 & w2 & caps1 & -> & [-> ->] & Hd).
  destruct Hd as (w3 & w4 & caps2 & -> & (_ & _ & ->) & Hd).
  apply denotes_location in Hd.
  destruct Hd as (path & line & Hcaps & Hne & Hpc & Hnum).
  exists path. unfold group. rewrite Hcaps. cbn. auto.
Qed.

Lemma JAVA_LUA_ERROR_LOCATION_groups (m : Match) (cur : cursor) :
  match_at JAVA_LUA_ERROR_LOCATION cur = Some m ->
  exists path,
    group m 1 = String "/" path /\ path <> ""
    /\ all_in path_char path = true /\ numeral (group m 2).
Proof.
  intros H. apply match_at_sound in H.
  destruct H as (w & after & _ & Hd & _).
  unfold JAVA_LUA_ERROR_LOCATION in Hd. cbn [denotes] in Hd.
  destruct Hd as (w1 & w2 & caps1 & -> & [-> ->] & Hd).
  destruct Hd as (w3 & w4 & caps2 & -> & Hl & Hd).
  apply denotes_lit in Hl. destruct Hl as [-> ->].
  destruct Hd as (w5 & w6 & caps3 & -> & (x & _ & -> & ->) & Hd).
  destruct Hd as (w7 & w8 & caps4 & -> & Hl & Hd).
  apply denotes_lit in Hl. destruct Hl as [-> ->].
  destruct Hd as (w9 & w10 & caps5 & -> & (y & _ & -> & ->) & Hd).
  destruct Hd as (w11 & w12 & caps6 & -> & Hl & Hd).
  apply denotes_lit in Hl. destruct Hl as [-> ->].
  apply denotes_location in Hd.
  destruct Hd as (path & line & Hcaps & Hne & Hpc & Hnum).
  exists path. unfold group. rewrite Hcaps. cbn. auto.
Qed.

Lemma JAVA_ERROR_LOCATION_groups (m : Match) (cur : cursor) :
  match_at JAVA_ERROR_LOCATION cur = Some m ->
  group m 1 <> "" /\ all_in class_char (group m 1) = true
  /\ numeral (group m 2).
Proof.
  intros H. apply match_at_sound in H.
  destruct H as (w & after & _ & Hd & _).
  unfold JAVA_ERROR_LOCATION in Hd. cbn [denotes] in Hd.
  destruct Hd as (w1 & w2 & caps1 & -> & [-> ->] & Hd).
  destruct Hd as (w3 & w4 & caps2 & -> & [-> ->] & Hd).
  destruct Hd as (w5 & w6 & caps3 & -> & Hl & Hd).
  apply denotes_lit in Hl. destruct Hl as [-> ->].
  destruct Hd as (q & w7 & caps4 & -> & (caps5 & Hq & ->) & Hd).
  destruct Hq as (Hqne & Hqc & ->).
  destruct Hd as (w8 & w9 & caps6 & -> & [-> ->] & Hd).
  destruct Hd as (w10 & w11 & caps7 & -> & (_ & _ & ->) & Hd).
  destruct Hd as (w12 & w13 & caps8 & -> & [-> ->] & Hd).
  destruct Hd as (w14 & w15 & caps9 & -> & (_ & _ & ->) & Hd).
  destruct Hd as (w16 & w17 & caps10 & -> & [-> ->] & Hd).
  destruct Hd as (line & w18 & caps11 & -> & (caps12 & Hline & ->) & Hd).
  destruct Hline as (Hlne & Hld & ->).
  destruct Hd as (w19 & w20 & caps13 & -> & [-> ->] & [-> Hcaps]).
  unfold group. rewrite Hcaps. cbn. repeat split; auto.
Qed.

Lemma findall2_JAVA_groups (message qualified line : string) :
  In (qualified, line) (findall2 JAVA_ERROR_LOCATION message) ->
  qualified <> "" /\ all_in class_char qualified = true /\ numeral line.
Proof.
  unfold findall2. rewrite in_map_iff. intros (m & [= <- <-] & Hin).
  apply scan_sound in Hin. destruct Hin as [cur Hm].
  eapply JAVA_ERROR_LOCATION_groups. exact Hm.
Qed.

(** ** More on find_file and find_location *)

Lemma strip_leading_sep_seps (n : nat) (path : string) :
  strip_leading_sep (seps n +:+ path) = strip_leading_sep path.
Proof.
  induction n as [|n IH]; [reflexivity |].
  cbn [seps]. rewrite append_cons. cbn [strip_leading_sep].
  rewrite Ascii.eqb_refl. exact IH.
Qed.

Lemma replace_dots_chars (q : string) :
  all_in class_char q = true ->
  all_in (fun c => is_word c || Ascii.eqb c "/") (replace_dots q) = true.
Proof.
  induction q as [|c q IH]; [reflexivity |].
  cbn [all_in replace_dots]. intros H.
  apply andb_true_iff in H. destruct H as [Hc Hq].
  rewrite (IH Hq), andb_true_r.
  destruct (Ascii.eqb_spec c "."); [reflexivity |].
  unfold class_char, one_of in Hc. cbn [list_ascii_of_string existsb] in Hc.
  rewrite orb_false_r in Hc. apply orb_true_iff in Hc.
  destruct Hc as [Hw|Hdot]; [now rewrite Hw |].
  apply Ascii.eqb_eq in Hdot. contradiction.
Qed.

Section Locating.

Variable os_path_exists : string -> bool.

Local Abbreviation find_file' := (find_file os_path_exists).
Local Abbreviation find_location' := (find_location os_path_exists).

Lemma find_file_candidate (path child : string) :
  find_file' path = Some child ->
  os_path_exists child = true
  /\ In child (candidates (strip_leading_sep path)).
Proof.
  rewrite find_file_find. intros H. apply find_some in H. tauto.
Qed.

Lemma candidate_relative (path child : string) :
  In child (candidates path) ->
  (exists project source_dir,
      In project PROJECT_LOCATIONS /\ In source_dir SOURCE_LOCATIONS
      /\ child = project +:+ "/" +:+ source_dir +:+ "/" +:+ path)
  /\ child <> "" /\ starts_with_sep child = false.
Proof.
  unfold candidates. intros Hin. apply in_flat_map in Hin.
  destruct Hin as (project & Hp & Hin). apply in_map_iff in Hin.
  destruct Hin as (source_dir & <- & Hs).
  split; [exists project, source_dir; auto |].
  simpl in Hp.
  repeat (destruct Hp as [<-|Hp]; [split; [discriminate | reflexivity] |]).
  contradiction.
Qed.

Lemma find_file_some (path child : string) :
  find_file' path = Some child ->
  os_path_exists child = true /\ starts_with_sep child = false.
Proof.
  intros H. apply find_file_candidate in H. destruct H as [Hex Hin].
  apply candidate_relative in Hin. tauto.
Qed.

(** X1.  A path [find_file] returns exists, lies under one of the
    projects and one of its source roots, and ends with the argument
    stripped of its leading separators; it is never empty nor absolute. *)
Theorem find_file_result (path child : string) :
  find_file' path = Some child ->
  os_path_exists child = true
  /\ (exists project source_dir,
         In project PROJECT_LOCATIONS /\ In source_dir SOURCE_LOCATIONS
         /\ child = project +:+ "/" +:+ source_dir +:+ "/"
                      +:+ strip_leading_sep path)
  /\ child <> "" /\ starts_with_sep child = false.
Proof.
  intros H. apply find_file_candidate in H. destruct H as [Hex Hin].
  split; [exact Hex |]. apply candidate_relative. exact Hin.
Qed.

(** X2.  Leading separators of the argument do not matter to
    [find_file]. *)
Theorem find_file_ignores_leading_seps (n : nat) (path : string) :
  find_file' (seps n +:+ path) = find_file' path.
Proof. unfold find_file. now rewrite strip_leading_sep_seps. Qed.

Lemma first_frame_in (frames : list (string * string)) (file line : string) :
  first_frame os_path_exists frames = Some (file, line) ->
  exists qualified,
    In (qualified, line) frames
    /\ find_file' (java_source qualified) = Some file.
Proof.
  induction frames as [|[q l] frames IH]; [discriminate |].
  cbn [first_frame fst snd].
  destruct (find_file' (java_source q)) as [f|] eqn:Hq.
  - intros [= <- <-]. exists q. split; [left; reflexivity | exact Hq].
  - intros H. destruct (IH H) as (q' & Hin & Hq').
    exists q'. split; [right; exact Hin | exact Hq'].
Qed.

Lemma located_some (location : option Match) (file line : string) :
  located os_path_exists location = Some (file, line) ->
  exists m,
    location = Some m /\ find_file' (group m 1) = Some file
    /\ line = group m 2.
Proof.
  destruct location as [m|]; [| discriminate]. cbn [located].
  destruct (find_file' (group m 1)) as [f|] eqn:Hf; [| discriminate].
  intros [= <- <-]. exists m. auto.
Qed.

(** X3.  Whatever [find_location] returns for a text is a file that
    exists, under one of the projects, and a line that is a non-empty
    run of decimal digits. *)
Theorem find_location_result (message file line : string) :
  find_location' (Some message) = inr (Some (file, line)) ->
  os_path_exists file = true /\ starts_with_sep file = false
  /\ numeral line.
Proof.
  unfold find_location. intros [= H]. unfold find_location_str in H.
  destruct (located os_path_exists (search LUA_ERROR_LOCATION message))
    as [[f l]|] eqn:H1.
  - injection H as -> ->. apply located_some in H1.
    destruct H1 as (m & Hm & Hf & ->).
    apply search_from_sound in Hm. destruct Hm as [cur Hm].
    apply LUA_ERROR_LOCATION_groups in Hm.
    destruct Hm as (_ & _ & _ & _ & Hnum).
    apply find_file_some in Hf. tauto.
  - destruct (located os_path_exists
                (search JAVA_LUA_ERROR_LOCATION message))
      as [[f l]|] eqn:H2.
    + injection H as -> ->. apply located_some in H2.
      destruct H2 as (m & Hm & Hf & ->).
      apply search_from_sound in Hm. destruct Hm as [cur Hm].
      apply JAVA_LUA_ERROR_LOCATION_groups in Hm.
      destruct Hm as (_ & _ & _ & _ & Hnum).
      apply find_file_some in Hf. tauto.
    + apply first_frame_in in H. destruct H as (q & Hin & Hq).
      apply findall2_JAVA_groups in Hin.
      apply find_file_some in Hq. tauto.
Qed.

(** X4.  A location captured by [LUA_ERROR_LOCATION] or by
    [JAVA_LUA_ERROR_LOCATION] is an absolute path of word characters,
    dots, dashes and separators with a numeric line, and [find_file]
    looks it up without its leading separator. *)
Theorem lua_location_shape (message : string) (location : Match) :
  search LUA_ERROR_LOCATION message = Some location
  \/ search JAVA_LUA_ERROR_LOCATION message = Some location ->
  exists path,
    group location 1 = String "/" path /\ path <> ""
    /\ all_in path_char path = true /\ numeral (group location 2)
    /\ find_file' (group location 1) = find_file' path.
Proof.
  intros [H|H]; apply search_from_sound in H; destruct H as [cur H];
    [apply LUA_ERROR_LOCATION_groups in H
    | apply JAVA_LUA_ERROR_LOCATION_groups in H];
    destruct H as (path & Hg & Hne & Hpc & Hnum);
    exists path; rewrite Hg;
    (split; [reflexivity |]); (split; [exact Hne |]);
    (split; [exact Hpc |]); (split; [exact Hnum |]);
    unfold find_file; f_equal; apply (strip_leading_sep_seps 1 path).
Qed.

End Locating.

(** X5.  A frame found by [JAVA_ERROR_LOCATION] has a non-empty class
    name of word characters and dots and a numeric line; the path probed
    for it is made of word characters and separators, before its
    [.java]. *)
Theorem java_frame_shape (message qualified line : string) :
  In (qualified, line) (findall2 JAVA_ERROR_LOCATION message) ->
  qualified <> "" /\ all_in class_char qualified = true /\ numeral line
  /\ all_in (fun c => is_word c || Ascii.eqb c "/") (replace_dots qualified)
     = true.
Proof.
  intros H. apply findall2_JAVA_groups in H.
  destruct H as (Hne & Hc & Hnum).
  repeat split; try apply Hnum; auto using replace_dots_chars.
Qed.

(** ** Collapsed whitespace *)

(** No whitespace but single spaces; [after_space] tells that the
    character before is a space. *)
Fixpoint single_spaced (after_space : bool) (s : string) : bool :=
  match s with
  | EmptyString => true
  | String c s' =>
      if is_space c then
        Ascii.eqb c " " && negb after_space && single_spaced true s'
      else single_spaced false s'
  end.

Lemma collapse_from_single_spaced (s : string) :
  forall in_run, single_spaced in_run (collapse_from in_run s) = true.
Proof.
  induction s as [|c s IH]; intros in_run; [reflexivity |].
  cbn [collapse_from]. destruct (is_space c) eqn:Hc.
  - destruct in_run; [apply IH |].
    cbn [single_spaced]. rewrite (IH true). reflexivity.
  - cbn [single_spaced]. rewrite Hc. destruct in_run; apply IH.
Qed.

Lemma single_spaced_weaken (s : string) :
  single_spaced true s = true -> single_spaced false s = true.
Proof.
  destruct s as [|c s]; [reflexivity |]. cbn [single_spaced].
  destruct (is_space c); [| auto]. rewrite andb_false_r. discriminate.
Qed.

Lemma single_spaced_suffix (a s : string) :
  forall b, single_spaced b (a +:+ s) = true ->
            exists b', single_spaced b' s = true.
Proof.
  induction a as [|c a IH]; intros b H; [exists b; exact H |].
  rewrite append_cons in H. cbn [single_spaced] in H.
  destruct (is_space c).
  - apply andb_true_iff in H. destruct H as [_ H]. eapply IH. exact H.
  - eapply IH. exact H.
Qed.

Lemma collapse_from_fixed (s : string) :
  (single_spaced true s = true -> collapse_from true s = s)
  /\ (single_spaced false s = true -> collapse_from false s = s).
Proof.
  induction s as [|c s [IHt IHf]]; [split; reflexivity |].
  cbn [single_spaced collapse_from]. destruct (is_space c) eqn:Hc; split.
  - rewrite andb_false_r. discriminate.
  - intros H. apply andb_true_iff in H. destruct H as [H Hs].
    apply andb_true_iff in H. destruct H as [Heq _].
    apply Ascii.eqb_eq in Heq. subst c. now rewrite IHt.
  - intros H. now rewrite IHf.
  - intros H. now rewrite IHf.
Qed.

(** X6.  The text [SPACES.sub(" ", s)] puts on an annotation line has no
    whitespace but spaces, hence no line break, and no two of them in a
    row; collapsing it again changes nothing. *)
Theorem collapsed_text_is_one_line (s : string) :
  let r := sub SPACES " " s in
  (forall a c b, r = a +:+ String c b -> is_space c = true -> c = " "%char)
  /\ (forall a b, r <> a +:+ String LF b)
  /\ (forall a c1 c2 b,
         r = a +:+ String c1 (String c2 b) ->
         is_space c1 = true -> is_space c2 = false)
  /\ sub SPACES " " r = r.
Proof.
  intros r. unfold r. rewrite sub_SPACES.
  pose proof (collapse_from_single_spaced s false) as Hss.
  fold (collapse s) in Hss.
  assert (H1 : forall a c b,
             collapse s = a +:+ String c b -> is_space c = true ->
             c = " "%char).
  { intros a c b Heq Hc. rewrite Heq in Hss.
    apply single_spaced_suffix in Hss. destruct Hss as [b' Hss].
    cbn [single_spaced] in Hss. rewrite Hc in Hss.
    apply andb_true_iff in Hss. destruct Hss as [Hss _].
    apply andb_true_iff in Hss. destruct Hss as [Hss _].
    now apply Ascii.eqb_eq in Hss. }
  split; [exact H1 |]. split; [| split].
  - intros a b Heq. specialize (H1 a LF b Heq eq_refl). discriminate.
  - intros a c1 c2 b Heq Hc1. rewrite Heq in Hss.
    apply single_spaced_suffix in Hss. destruct Hss as [b' Hss].
    cbn [single_spaced] in Hss. rewrite Hc1 in Hss.
    destruct (is_space c2); [| reflexivity].
    apply andb_true_iff in Hss. destruct Hss as [_ Hss].
    apply andb_true_iff in Hss. destruct Hss as [Hss _].
    apply andb_true_iff in Hss. destruct Hss as [_ Hss].
    cbn in Hss. discriminate.
  - rewrite sub_SPACES. apply collapse_from_fixed. exact Hss.
Qed.

(** ** More on the scans *)

(** A loop whose iterations all return prints their output in order. *)
Lemma for_flat {A : Type} (l : list A) (body : A -> io unit)
    (outs : A -> list string) :
  (forall x, In x l -> body x = (outs x, inr tt)) ->
  for_ l body = (flat_map outs l, inr tt).
Proof.
  intros H. induction l as [|x l IH]; [reflexivity |].
  cbn [for_ flat_map]. rewrite (H x) by (left; reflexivity).
  rewrite IH by (intros y Hy; apply H; right; exact Hy). reflexivity.
Qed.

Lemma flat_map_pairs {A B C : Type} (f : A * B -> list C) (a : A)
    (l : list B) :
  flat_map f (map (pair a) l) = flat_map (fun b => f (a, b)) l.
Proof.
  induction l as [|b l IH]; [reflexivity |].
  cbn [map flat_map]. now rewrite IH.
Qed.

Lemma flat_map_nested {A B C : Type} (f : B -> list C) (g : A -> list B)
    (l : list A) :
  flat_map f (flat_map g l) = flat_map (fun a => flat_map f (g a)) l.
Proof.
  induction l as [|a l IH]; [reflexivity |].
  cbn [flat_map]. rewrite flat_map_app. now rewrite IH.
Qed.

(** A loop over projects none of which has a report does nothing. *)
Lemma for_no_reports {A : Type} (reports : string -> list A)
    (body : A -> io unit) (projects : list string) :
  (forall project, In project projects -> reports project = []) ->
  for_ projects (fun project => for_ (reports project) body) = ret tt.
Proof.
  intros H. induction projects as [|p projects IH]; [reflexivity |].
  cbn [for_]. rewrite (H p) by (left; reflexivity). cbn [for_].
  rewrite bind_ret_l. apply IH. intros q Hq. apply H. right. exact Hq.
Qed.

(** What follows a run that raised does not run. *)
Lemma bind_raises {A : Type} (m : io A) (f : A -> io A) :
  raises m -> bind m f = m.
Proof.
  intros [e He]. destruct m as [out [e'|a]]; [reflexivity | discriminate].
Qed.

Lemma matches_any_xml (name : string) :
  matches any_xml name = true <-> exists stem, name = stem +:+ ".xml".
Proof. exact (matches_lit_any_lit "" ".xml" name). Qed.

Section MoreScans.

Variable os_path_exists : string -> bool.
Variable scandir : string -> list string.
Variable ET_parse : string -> exn + Element.
Variable relpath_from_cwd : string -> string.

Local Abbreviation junit_failure' := (junit_failure os_path_exists).
Local Abbreviation junit_root' := (junit_root os_path_exists).
Local Abbreviation parse_junit' :=
  (parse_junit os_path_exists scandir ET_parse).
Local Abbreviation parse_checkstyle' :=
  (parse_checkstyle scandir ET_parse relpath_from_cwd).
Local Abbreviation main' :=
  (main os_path_exists scandir ET_parse relpath_from_cwd).
Local Abbreviation checkstyle_error' := (checkstyle_error relpath_from_cwd).
Local Abbreviation checkstyle_root' := (checkstyle_root relpath_from_cwd).

(** X7.  The loop body of the JUnit scan returns exactly when the test
    case has its [classname] and [name], and the failure its body and
    its [message]; otherwise it raises before it prints, a [KeyError]
    for the first attribute the test case lacks. *)
Theorem junit_failure_needs (testcase result : Element) :
  (returned (junit_failure' testcase result) = inr tt
   <-> is_Some (attrib testcase !! "classname")
       /\ is_Some (attrib testcase !! "name")
       /\ is_Some (text result)
       /\ is_Some (attrib result !! "message"))
  /\ (raises (junit_failure' testcase result) ->
      output (junit_failure' testcase result) = [])
  /\ (attrib testcase !! "classname" = None ->
      junit_failure' testcase result = ([], inl (KeyError "classname")))
  /\ (is_Some (attrib testcase !! "classname") ->
      attrib testcase !! "name" = None ->
      junit_failure' testcase result = ([], inl (KeyError "name"))).
Proof.
  destruct (attrib testcase !! "classname") as [c|] eqn:Hc;
    destruct (attrib testcase !! "name") as [n|] eqn:Hn;
    destruct (text result) as [body|] eqn:Ht;
    destruct (attrib result !! "message") as [msg|] eqn:Hm;
    try (rewrite (junit_failure_prints os_path_exists _ _ _ _ _ _
                    Hc Hn Hm Ht);
         split; [split; [intros _; repeat split; eauto | reflexivity] |];
         split; [intros [e He]; discriminate |];
         split; [discriminate |]; intros _; discriminate);
    unfold junit_failure, getitem; rewrite ?Hc, ?Hn, ?Ht, ?Hm;
    (split;
     [split;
      [discriminate
      | intros (H1 & H2 & H3 & H4);
        first [destruct H1 as [? H1]; discriminate
              | destruct H2 as [? H2]; discriminate
              | destruct H3 as [? H3]; discriminate
              | destruct H4 as [? H4]; discriminate]]
     |]);
    (split; [reflexivity |]);
    split; try reflexivity; try discriminate;
    try (intros [? H]; discriminate); try (intros _; reflexivity);
    try (intros _ H; discriminate).
Qed.

(** X8.  The loop body of the Checkstyle scan returns exactly when the
    enclosing element has a non-empty [name] and the element its
    [severity], [line] and [message]; otherwise it raises before it
    prints.  An empty [name] is the [ValueError] of [os.path.relpath]; a
    missing [column] never raises. *)
Theorem checkstyle_error_needs (file error : Element) :
  (returned (checkstyle_error' file error) = inr tt
   <-> (exists name, attrib file !! "name" = Some name /\ name <> "")
       /\ is_Some (attrib error !! "severity")
       /\ is_Some (attrib error !! "line")
       /\ is_Some (attrib error !! "message"))
  /\ (raises (checkstyle_error' file error) ->
      output (checkstyle_error' file error) = [])
  /\ (attrib file !! "name" = None ->
      checkstyle_error' file error = ([], inl (KeyError "name")))
  /\ (attrib file !! "name" = Some "" ->
      checkstyle_error' file error
      = ([], inl (ValueError "no path specified"))).
Proof.
  unfold checkstyle_error, getitem, os_path_relpath.
  destruct (attrib file !! "name") as [n|] eqn:Hn.
  - rewrite bind_ret_l. destruct (String.eqb_spec n "") as [->|Hne].
    + split; [split; [discriminate |] |].
      * intros ((name & [= <-] & Hne) & _). contradiction.
      * split; [reflexivity |]. split; [discriminate | reflexivity].
    + rewrite bind_ret_l.
      destruct (attrib error !! "severity") as [sev|] eqn:Hs;
        destruct (attrib error !! "line") as [l|] eqn:Hl;
        destruct (attrib error !! "message") as [msg|] eqn:Hm;
        rewrite ?bind_ret_l;
        (split;
         [split;
          [first [discriminate | intros _; repeat split; eauto]
          | first [reflexivity
                  | intros (_ & H1 & H2 & H3);
                    first [destruct H1 as [? H1]; discriminate
                          | destruct H2 as [? H2]; discriminate
                          | destruct H3 as [? H3]; discriminate]]]
         |]);
        (split; [first [reflexivity | intros [e He]; discriminate] |]);
        (split; [discriminate |]); intros [= ->]; contradiction.
  - split; [split; [discriminate |] |].
    + intros ((name & H & _) & _). discriminate.
    + split; [reflexivity |]. split; [reflexivity | discriminate].
Qed.

(** The failures of a report, in document order, each with its test
    case. *)
Definition failure_pairs (root : Element) : list (Element * Element) :=
  flat_map
    (fun testcase =>
       map (pair testcase)
           (List.filter (is_tag "failure") (children testcase)))
    (List.filter (is_tag "testcase") (children root)).

Definition complete_failure (p : Element * Element) : Prop :=
  is_Some (attrib (fst p) !! "classname")
  /\ is_Some (attrib (fst p) !! "name")
  /\ is_Some (text (snd p))
  /\ is_Some (attrib (snd p) !! "message").

(** The four values printed for a failure. *)
Definition failure_block (p : Element * Element) : list string :=
  let name := default "" (attrib (fst p) !! "classname") +:+ "."
                +:+ default "" (attrib (fst p) !! "name") in
  let body := str_of (text (snd p)) in
  [headline os_path_exists name (default "" (attrib (snd p) !! "message"))
     body;
   "::group::Full error message"; body; "::endgroup"].

(** X9.  A report whose failures all have what the scan reads prints
    one block of four values for each failure, in document order, and
    nothing for its passing test cases; it then returns. *)
Theorem junit_root_blocks (root : Element) :
  Forall complete_failure (failure_pairs root) ->
  junit_root' root = (flat_map failure_block (failure_pairs root), inr tt)
  /\ length (output (junit_root' root)) = 4 * length (failure_pairs root).
Proof.
  intros Hall.
  assert (Hroot : junit_root' root
                  = (flat_map failure_block (failure_pairs root), inr tt)).
  { unfold junit_root, failure_pairs in *.
    rewrite <- (for_filter (is_tag "testcase"))
      by (intros x Hx; now apply junit_testcase_other).
    rewrite flat_map_nested. apply for_flat.
    intros testcase Htc. rewrite flat_map_pairs.
    pose proof Htc as Htag. apply filter_In in Htag.
    destruct Htag as [_ Htag]. unfold junit_testcase.
    unfold is_tag in Htag. rewrite Htag. cbn [negb].
    rewrite <- (for_filter (is_tag "failure"))
      by (intros x Hx; now apply junit_result_other).
    apply for_flat. intros result Hres.
    pose proof Hres as Hrtag. apply filter_In in Hrtag.
    destruct Hrtag as [_ Hrtag]. unfold junit_result.
    unfold is_tag in Hrtag. rewrite Hrtag. cbn [negb].
    rewrite List.Forall_forall in Hall.
    destruct (Hall (testcase, result))
      as ([c Hc] & [n Hn] & [body Ht] & [msg Hm]).
    { apply in_flat_map. exists testcase. split; [exact Htc |].
      apply in_map. exact Hres. }
    cbn [fst snd] in *.
    rewrite (junit_failure_prints os_path_exists _ _ _ _ _ _ Hc Hn Hm Ht).
    unfold failure_block. cbn [fst snd]. rewrite Hc, Hn, Hm, Ht.
    reflexivity. }
  split; [exact Hroot |]. rewrite Hroot. cbn [output fst].
  generalize (failure_pairs root). intros l.
  induction l as [|p l IH]; [reflexivity |].
  cbn [flat_map]. rewrite length_app, IH. cbn [failure_block length]. lia.
Qed.

(** The children of the children of a Checkstyle report, in document
    order, each with its parent; their tags are not looked at. *)
Definition issue_pairs (root : Element) : list (Element * Element) :=
  flat_map (fun file => map (pair file) (children file)) (children root).

Definition complete_issue (p : Element * Element) : Prop :=
  (exists name, attrib (fst p) !! "name" = Some name /\ name <> "")
  /\ is_Some (attrib (snd p) !! "severity")
  /\ is_Some (attrib (snd p) !! "line")
  /\ is_Some (attrib (snd p) !! "message").

Definition issue_line (p : Element * Element) : string :=
  default "" (attrib (snd p) !! "severity") +:+ " "
    +:+ relpath_from_cwd (default "" (attrib (fst p) !! "name")) +:+ ":"
    +:+ default "" (attrib (snd p) !! "line") +:+ ":"
    +:+ default "1" (attrib (snd p) !! "column") +:+ ": "
    +:+ collapse (default "" (attrib (snd p) !! "message")).

(** X10.  A Checkstyle report whose elements all have what the scan
    reads prints one line for each child of each child of the root, in
    document order and whatever the tags are; it then returns. *)
Theorem checkstyle_root_prints_every_child (root : Element) :
  Forall complete_issue (issue_pairs root) ->
  checkstyle_root' root = (map issue_line (issue_pairs root), inr tt)
  /\ length (output (checkstyle_root' root)) = length (issue_pairs root).
Proof.
  intros Hall.
  assert (Hroot : checkstyle_root' root
                  = (flat_map (fun p => [issue_line p]) (issue_pairs root),
                     inr tt)).
  { unfold checkstyle_root, issue_pairs in *.
    rewrite flat_map_nested. apply for_flat. intros file Hfile.
    rewrite flat_map_pairs. apply for_flat. intros error Herror.
    rewrite List.Forall_forall in Hall.
    destruct (Hall (file, error))
      as ((n & Hn & Hne) & [sev Hs] & [l Hl] & [msg Hm]).
    { apply in_flat_map. exists file. split; [exact Hfile |].
      apply in_map. exact Herror. }
    cbn [fst snd] in *.
    unfold checkstyle_error, getitem, os_path_relpath, issue_line.
    cbn [fst snd]. rewrite Hn, Hs, Hl, Hm.
    apply String.eqb_neq in Hne.
    rewrite bind_ret_l, Hne, !bind_ret_l, sub_SPACES. reflexivity. }
  assert (Hmap : forall l : list (Element * Element),
             flat_map (fun p => [issue_line p]) l = map issue_line l).
  { intros l. induction l as [|p l IH]; [reflexivity |].
    cbn [flat_map map app]. now rewrite IH. }
  rewrite Hmap in Hroot. split; [exact Hroot |].
  rewrite Hroot. cbn [output fst]. apply length_map.
Qed.

(** X11.  For a project root, the Checkstyle scan discovers the entries
    of the directory [<project>/build/reports/checkstyle] itself whose
    name ends with [.xml], in the order the directory lists them, and
    nothing below it. *)
Theorem checkstyle_reports_are_direct_entries (project : string) :
  In project PROJECT_LOCATIONS ->
  let directory := project +:+ "/build/reports/checkstyle" in
  checkstyle_reports scandir project
  = map (fun name => directory +:+ "/" +:+ name)
        (List.filter (matches any_xml) (scandir directory))
  /\ (forall path,
         In path (checkstyle_reports scandir project)
         <-> exists name stem,
               In name (scandir directory)
               /\ name = stem +:+ ".xml"
               /\ path = directory +:+ "/" +:+ name).
Proof.
  intros Hp directory. unfold checkstyle_reports, glob.
  rewrite (join_build_dir project "build/reports/checkstyle" Hp eq_refl).
  fold directory. split; [reflexivity |].
  intros path. rewrite in_map_iff. split.
  - intros (name & <- & Hin). apply filter_In in Hin.
    destruct Hin as [Hin Hmatch].
    apply matches_any_xml in Hmatch. destruct Hmatch as [stem Hm].
    exists name, stem. auto.
  - intros (name & stem & Hin & Hname & ->). exists name.
    split; [reflexivity |]. apply filter_In. split; [exact Hin |].
    apply matches_any_xml. exists stem. exact Hname.
Qed.

(** X12.  A discovered report that [ET.parse] cannot read makes the run
    raise.  When it is a JUnit report the whole run is the JUnit scan up
    to the exception: the Checkstyle scan does not start. *)
Theorem unparsable_report_aborts (project path : string) (e : exn) :
  In project PROJECT_LOCATIONS -> ET_parse path = inl e ->
  (In path (junit_reports scandir project) ->
   raises parse_junit' /\ main' = parse_junit')
  /\ (In path (checkstyle_reports scandir project) ->
      raises parse_checkstyle' /\ raises main').
Proof.
  intros Hp Hparse. split.
  - intros Hin.
    assert (Hj : raises parse_junit').
    { unfold parse_junit. apply raises_bind_r. intros _.
      apply raises_bind_l. apply (for_raises _ _ project Hp).
      apply (for_raises _ _ path Hin).
      unfold _parse_junit_file. rewrite Hparse. exists e. reflexivity. }
    split; [exact Hj |]. unfold main. now apply bind_raises.
  - intros Hin.
    assert (Hc : raises parse_checkstyle').
    { unfold parse_checkstyle. apply raises_bind_r. intros _.
      apply raises_bind_l. apply (for_raises _ _ project Hp).
      apply (for_raises _ _ path Hin).
      unfold _parse_checkstyle. rewrite Hparse. exists e. reflexivity. }
    split; [exact Hc |]. unfold main. apply raises_bind_r.
    intros _. exact Hc.
Qed.

(** X13.  With no report in any of the projects the run prints the four
    matcher directives, in order, and returns. *)
Theorem no_reports_only_directives :
  (forall project,
      In project PROJECT_LOCATIONS ->
      junit_reports scandir project = []
      /\ checkstyle_reports scandir project = []) ->
  main'
  = (["::add-matcher::.github/matchers/junit.json";
      "::remove-matcher owner=junit::";
      "::add-matcher::.github/matchers/checkstyle.json";
      "::remove-matcher owner=checkstyle::"], inr tt).
Proof.
  intros H. unfold main, parse_junit, parse_checkstyle.
  rewrite (for_no_reports (junit_reports scandir))
    by (intros p Hp; apply (H p Hp)).
  rewrite (for_no_reports (checkstyle_reports scandir))
    by (intros p Hp; apply (H p Hp)).
  reflexivity.
Qed.

End MoreScans.

(** ** Concrete runs, continued *)

Lemma find_file_result_witness :
  repo "projects/core/src/test/resources/test-rom/spec/a_spec.lua" = true
  /\ (exists project source_dir,
         In project PROJECT_LOCATIONS /\ In source_dir SOURCE_LOCATIONS
         /\ "projects/core/src/test/resources/test-rom/spec/a_spec.lua"
            = project +:+ "/" +:+ source_dir +:+ "/"
                +:+ strip_leading_sep "///test-rom/spec/a_spec.lua")
  /\ "projects/core/src/test/resources/test-rom/spec/a_spec.lua" <> ""
  /\ starts_with_sep
       "projects/core/src/test/resources/test-rom/spec/a_spec.lua" = false.
Proof.
  apply (find_file_result repo "///test-rom/spec/a_spec.lua").
  vm_compute. reflexivity.
Defined.

Lemma find_location_result_witness :
  repo "projects/core/src/test/java/dan200/Foo.java" = true
  /\ starts_with_sep "projects/core/src/test/java/dan200/Foo.java" = false
  /\ numeral "7".
Proof.
  apply (find_location_result repo frames_message).
  vm_compute. reflexivity.
Defined.

Lemma lua_location_shape_witness :
  exists location,
    search LUA_ERROR_LOCATION lua_message = Some location
    /\ exists path,
         group location 1 = String "/" path /\ path <> ""
         /\ all_in path_char path = true /\ numeral (group location 2)
         /\ find_file repo (group location 1) = find_file repo path.
Proof.
  eexists. split; [vm_compute; reflexivity |].
  apply (lua_location_shape repo lua_message). left.
  vm_compute. reflexivity.
Defined.

Lemma java_frame_shape_witness :
  "dan200.Foo" <> "" /\ all_in class_char "dan200.Foo" = true
  /\ numeral "7"
  /\ all_in (fun c => is_word c || Ascii.eqb c "/")
       (replace_dots "dan200.Foo") = true.
Proof.
  apply (java_frame_shape frames_message "dan200.Foo" "7").
  vm_compute. auto.
Defined.

Definition two_testcases : Element :=
  MkElement "testsuite" (attrs [("name", "dan200.FooTest")]) None
    [MkElement "testcase"
       (attrs [("classname", "dan200.FooTest"); ("name", "passes")])
       None [];
     a_testcase [an_error; a_failure "assertion failed" lua_message]].

Lemma junit_root_blocks_witness :
  junit_root repo two_testcases
  = (flat_map (failure_block repo) (failure_pairs two_testcases), inr tt)
  /\ length (output (junit_root repo two_testcases))
     = 4 * length (failure_pairs two_testcases).
Proof.
  apply (junit_root_blocks repo two_testcases).
  constructor; [| constructor].
  unfold complete_failure, is_Some.
  repeat split; eexists; vm_compute; reflexivity.
Defined.

(** One passing test case, one failing: one block. *)
Example junit_root_one_failure :
  junit_root repo two_testcases
  = (["## projects/core/src/test/resources/test-rom/spec/a_spec.lua:12: "
        +:+ "dan200.FooTest.runs failed: assertion failed";
      "::group::Full error message"; lua_message; "::endgroup"], inr tt).
Proof. vm_compute. reflexivity. Qed.

(** A report whose elements have other tags than [file] and [error]. *)
Definition odd_checkstyle : Element :=
  MkElement "checkstyle" (attrs []) None
    [MkElement "module" (attrs [("name", "B.java")]) None
       [MkElement "warning"
          (attrs [("severity", "info"); ("line", "9"); ("message", "odd")])
          None []];
     a_checkstyle_file [an_issue]].

Lemma checkstyle_root_prints_every_child_witness :
  checkstyle_root relpath_here odd_checkstyle
  = (map (issue_line relpath_here) (issue_pairs odd_checkstyle), inr tt)
  /\ length (output (checkstyle_root relpath_here odd_checkstyle))
     = length (issue_pairs odd_checkstyle).
Proof.
  apply (checkstyle_root_prints_every_child relpath_here odd_checkstyle).
  constructor; [| constructor; [| constructor]];
    unfold complete_issue, is_Some;
    (split; [eexists; split; [vm_compute; reflexivity | discriminate] |]);
    repeat split; eexists; vm_compute; reflexivity.
Defined.

Example checkstyle_root_odd :
  checkstyle_root relpath_here odd_checkstyle
  = (["info B.java:9:1: odd"; "error A.java:3:1: bad"], inr tt).
Proof. vm_compute. reflexivity. Qed.

Definition scandir_checkstyle (directory : string) : list string :=
  if String.eqb directory "projects/core/build/reports/checkstyle"
  then ["main.xml"; "main.html"; "test.xml"]
  else [].

Lemma checkstyle_reports_are_direct_entries_witness :
  checkstyle_reports scandir_checkstyle "projects/core"
  = map (fun name =>
           ("projects/core" +:+ "/build/reports/checkstyle") +:+ "/" +:+ name)
        (List.filter (matches any_xml)
           (scandir_checkstyle
              ("projects/core" +:+ "/build/reports/checkstyle")))
  /\ (forall path,
         In path (checkstyle_reports scandir_checkstyle "projects/core")
         <-> exists name stem,
               In name
                 (scandir_checkstyle
                    ("projects/core" +:+ "/build/reports/checkstyle"))
               /\ name = stem +:+ ".xml"
               /\ path
                  = ("projects/core" +:+ "/build/reports/checkstyle")
                      +:+ "/" +:+ name).
Proof.
  apply (checkstyle_reports_are_direct_entries scandir_checkstyle
           "projects/core").
  simpl. auto.
Defined.

Example checkstyle_reports_found :
  checkstyle_reports scandir_checkstyle "projects/core"
  = ["projects/core/build/reports/checkstyle/main.xml";
     "projects/core/build/reports/checkstyle/test.xml"].
Proof. vm_compute. reflexivity. Qed.

(** A parser that can read nothing. *)
Definition parse_nothing (path : string) : exn + Element :=
  inl (ParseError "syntax error: line 1, column 0").

Lemma unparsable_report_aborts_witness :
  raises (parse_junit repo scandir_flat parse_nothing)
  /\ main repo scandir_flat parse_nothing relpath_here
     = parse_junit repo scandir_flat parse_nothing.
Proof.
  apply (unparsable_report_aborts repo scandir_flat parse_nothing
           relpath_here "projects/core"
           "projects/core/build/test-results/test/TEST-dan200.FooTest.xml"
           (ParseError "syntax error: line 1, column 0")).
  - simpl. auto.
  - reflexivity.
  - vm_compute. auto.
Defined.

Example main_unparsable :
  main repo scandir_flat parse_nothing relpath_here
  = (["::add-matcher::.github/matchers/junit.json"],
     inl (ParseError "syntax error: line 1, column 0")).
Proof. vm_compute. reflexivity. Qed.

Definition scandir_empty (directory : string) : list string := [].

Lemma no_reports_only_directives_witness :
  main repo scandir_empty parse_nothing relpath_here
  = (["::add-matcher::.github/matchers/junit.json";
      "::remove-matcher owner=junit::";
      "::add-matcher::.github/matchers/checkstyle.json";
      "::remove-matcher owner=checkstyle::"], inr tt).
Proof.
  apply (no_reports_only_directives repo scandir_empty parse_nothing
           relpath_here).
  intros project _. split; reflexivity.
Defined.

(** * The frames a text holds *)

(** ** The matcher finds a match where there is one *)

(** One character of the class [p] taken at the cursor. *)
Definition step_to (p : ascii -> bool) (cur cur' : cursor) : Prop :=
  exists c s',
    rest cur = String c s' /\ p c = true
    /\ cur' = Cursor (Some c) s' (S (pos cur)).

Inductive steps (p : ascii -> bool) : cursor -> cursor -> Prop :=
| steps_here (cur : cursor) : steps p cur cur
| steps_on (cur mid cur' : cursor) :
    step_to p cur mid -> steps p mid cur' -> steps p cur cur'.

(** A way through the pattern from one cursor to another, the anchors
    checked where they stand, and the groups it adds. *)
Fixpoint accepts (r : regex) (cur : cursor) (caps : captures)
    (cur' : cursor) (caps' : captures) : Prop :=
  match r with
  | Eps => cur' = cur /\ caps' = caps
  | Lit c => step_to (Ascii.eqb c) cur cur' /\ caps' = caps
  | Cls p => step_to p cur cur' /\ caps' = caps
  | Star p => steps p cur cur' /\ caps' = caps
  | Plus p =>
      exists mid, step_to p cur mid /\ steps p mid cur' /\ caps' = caps
  | Seq r1 r2 =>
      exists mid caps1,
        accepts r1 cur caps mid caps1 /\ accepts r2 mid caps1 cur' caps'
  | Group n r' =>
      exists caps1,
        accepts r' cur caps cur' caps1
        /\ caps' = (n, take_str (pos cur' - pos cur) (rest cur)) :: caps1
  | BoS => prev cur = None /\ cur' = cur /\ caps' = caps
  | Bol => at_line_start cur = true /\ cur' = cur /\ caps' = caps
  | Eol => at_line_end cur = true /\ cur' = cur /\ caps' = caps
  | EoS => rest cur = "" /\ cur' = cur /\ caps' = caps
  end.

Lemma cursor_eta (cur : cursor) :
  Cursor (prev cur) (rest cur) (pos cur) = cur.
Proof. now destruct cur. Qed.

Lemma step1_accepts (p : ascii -> bool) (k : cont) (cur : cursor)
    (caps : captures) (o : outcome) :
  step1 p k cur caps = Some o ->
  exists cur', step_to p cur cur' /\ k cur' caps = Some o.
Proof.
  unfold step1, step_to.
  destruct (rest cur) as [|x s'] eqn:Hr; [discriminate |].
  destruct (p x) eqn:Hx; [| discriminate].
  intros H. eexists. split; [| exact H]. eauto.
Qed.

Lemma star_accepts (p : ascii -> bool) (k : cursor -> option outcome)
    (s : string) :
  forall (pv : option ascii) (i : nat) (o : outcome),
    star p k pv s i = Some o ->
    exists cur', steps p (Cursor pv s i) cur' /\ k cur' = Some o.
Proof.
  induction s as [|c s IH]; intros pv i o; cbn [star].
  - intros H. eexists. split; [apply steps_here | exact H].
  - assert (Hhere : k (Cursor pv (String c s) i) = Some o ->
                    exists cur',
                      steps p (Cursor pv (String c s) i) cur'
                      /\ k cur' = Some o).
    { intros H. eexists. split; [apply steps_here | exact H]. }
    destruct (p c) eqn:Hc; [| exact Hhere].
    destruct (star p k (Some c) s (S i)) as [o'|] eqn:Hs; [| exact Hhere].
    intros [= <-]. destruct (IH _ _ _ Hs) as (cur' & Hsteps & Hk).
    exists cur'. split; [| exact Hk].
    eapply steps_on; [| exact Hsteps]. exists c, s. auto.
Qed.

(** Every success of the matcher is a way through the pattern. *)
Lemma exec_accepts (r : regex) :
  forall (k : cont) (cur : cursor) (caps : captures) (o : outcome),
    exec r k cur caps = Some o ->
    exists cur' caps', accepts r cur caps cur' caps' /\ k cur' caps' = Some o.
Proof.
  induction r as [|c|p|p|p|r1 IH1 r2 IH2|n r IH| | | |];
    intros k cur caps o; cbn [exec accepts].
  - intros H. exists cur, caps. auto.
  - intros H. apply step1_accepts in H. destruct H as (cur' & Hs & Hk).
    exists cur', caps. auto.
  - intros H. apply step1_accepts in H. destruct H as (cur' & Hs & Hk).
    exists cur', caps. auto.
  - unfold star_at. intros H. apply star_accepts in H.
    rewrite cursor_eta in H. destruct H as (cur' & Hs & Hk).
    exists cur', caps. auto.
  - intros H. apply step1_accepts in H. destruct H as (mid & Hs & Hk).
    unfold star_at in Hk. apply star_accepts in Hk.
    rewrite cursor_eta in Hk. destruct Hk as (cur' & Hs' & Hk).
    exists cur', caps. split; [| exact Hk]. exists mid. auto.
  - intros H. apply IH1 in H. destruct H as (mid & caps1 & Ha1 & H).
    apply IH2 in H. destruct H as (cur' & caps' & Ha2 & Hk).
    exists cur', caps'. split; [| exact Hk]. exists mid, caps1. auto.
  - intros H. apply IH in H. destruct H as (cur' & caps1 & Ha & Hk).
    eexists cur', _. split; [| exact Hk]. exists caps1. auto.
  - destruct (prev cur) eqn:Hp; [discriminate |]. intros H.
    exists cur, caps. auto.
  - destruct (at_line_start cur) eqn:Hp; [| discriminate]. intros H.
    exists cur, caps. auto.
  - destruct (at_line_end cur) eqn:Hp; [| discriminate]. intros H.
    exists cur, caps. auto.
  - destruct (rest cur) eqn:Hp; [| discriminate]. intros H.
    exists cur, caps. auto.
Qed.

Lemma star_finds (p : ascii -> bool) (k : cursor -> option outcome)
    (cur cur' : cursor) :
  steps p cur cur' -> k cur' <> None ->
  star p k (prev cur) (rest cur) (pos cur) <> None.
Proof.
  intros Hsteps Hk. induction Hsteps as [cur|cur mid cur' Hstep Hsteps IH].
  - destruct cur as [pv s i]. cbn [prev rest pos].
    destruct s as [|c s]; cbn [star]; [exact Hk |].
    destruct (p c); [| exact Hk].
    destruct (star p k (Some c) s (S i)); [discriminate | exact Hk].
  - destruct Hstep as (c & s' & Hr & Hc & ->). rewrite Hr. cbn [star].
    rewrite Hc. specialize (IH Hk). cbn [prev rest pos] in IH.
    destruct (star p k (Some c) s' (S (pos cur))); [discriminate |].
    contradiction.
Qed.

Lemma step1_finds (p : ascii -> bool) (k : cont) (cur cur' : cursor)
    (caps : captures) :
  step_to p cur cur' -> k cur' caps <> None -> step1 p k cur caps <> None.
Proof.
  intros (c & s' & Hr & Hc & ->) Hk. unfold step1. now rewrite Hr, Hc.
Qed.

(** Where there is a way through the pattern after which the rest
    succeeds, the matcher succeeds. *)
Lemma exec_finds (r : regex) :
  forall (k : cont) (cur : cursor) (caps : captures) (cur' : cursor)
         (caps' : captures),
    accepts r cur caps cur' caps' -> k cur' caps' <> None ->
    exec r k cur caps <> None.
Proof.
  induction r as [|c|p|p|p|r1 IH1 r2 IH2|n r IH| | | |];
    intros k cur caps cur' caps'; cbn [exec accepts].
  - intros [-> ->]. auto.
  - intros [Hs ->]. now apply step1_finds.
  - intros [Hs ->]. now apply step1_finds.
  - intros [Hs ->] Hk. unfold star_at. now apply (star_finds _ _ cur cur').
  - intros (mid & Hs & Hs' & ->) Hk. apply (step1_finds _ _ _ mid); auto.
    unfold star_at. now apply (star_finds _ _ mid cur').
  - intros (mid & caps1 & Ha1 & Ha2) Hk.
    apply (IH1 _ _ _ mid caps1 Ha1). apply (IH2 _ _ _ cur' caps' Ha2 Hk).
  - intros (caps1 & Ha & ->) Hk. apply (IH _ _ _ cur' caps1 Ha). exact Hk.
  - intros (Hp & -> & ->) Hk. now rewrite Hp.
  - intros (Hp & -> & ->) Hk. now rewrite Hp.
  - intros (Hp & -> & ->) Hk. now rewrite Hp.
  - intros (Hp & -> & ->) Hk. now rewrite Hp.
Qed.

Lemma step_to_word (p : ascii -> bool) (cur cur' : cursor) :
  step_to p cur cur' ->
  exists c,
    rest cur = String c (rest cur') /\ pos cur' = S (pos cur) /\ p c = true.
Proof. intros (c & s' & Hr & Hc & ->). exists c. auto. Qed.

Lemma steps_word (p : ascii -> bool) (cur cur' : cursor) :
  steps p cur cur' ->
  exists w,
    rest cur = w +:+ rest cur' /\ pos cur' = pos cur + String.length w
    /\ all_in p w = true.
Proof.
  intros H. induction H as [cur|cur mid cur' Hstep Hsteps IH].
  - exists "". cbn. auto.
  - apply step_to_word in Hstep. destruct Hstep as (c & Hr & Hp & Hc).
    destruct IH as (w & Hr' & Hp' & Hw). exists (String c w).
    cbn [all_in String.length]. rewrite Hr, Hr', Hc, Hw, Hp', Hp.
    repeat split. lia.
Qed.

(** A way through the pattern consumes a text the pattern denotes. *)
Lemma accepts_denotes (r : regex) :
  forall (cur : cursor) (caps : captures) (cur' : cursor)
         (caps' : captures),
    accepts r cur caps cur' caps' ->
    exists w,
      rest cur = w +:+ rest cur' /\ pos cur' = pos cur + String.length w
      /\ denotes r w caps caps'.
Proof.
  induction r as [|c|p|p|p|r1 IH1 r2 IH2|n r IH| | | |];
    intros cur caps cur' caps'; cbn [accepts denotes].
  - intros [-> ->]. exists "". cbn. auto.
  - intros [Hs ->]. apply step_to_word in Hs.
    destruct Hs as (x & Hr & Hp & Hx). apply Ascii.eqb_eq in Hx. subst x.
    exists (String c ""). cbn. repeat split; auto. lia.
  - intros [Hs ->]. apply step_to_word in Hs.
    destruct Hs as (x & Hr & Hp & Hx).
    exists (String x ""). cbn. repeat split; eauto. lia.
  - intros [Hs ->]. apply steps_word in Hs.
    destruct Hs as (w & Hr & Hp & Hw). exists w. auto.
  - intros (mid & Hs & Hs' & ->). apply step_to_word in Hs.
    destruct Hs as (x & Hr & Hp & Hx). apply steps_word in Hs'.
    destruct Hs' as (w & Hr' & Hp' & Hw). exists (String x w).
    cbn [all_in String.length]. rewrite Hr, Hr', Hx, Hw, Hp', Hp.
    split; [reflexivity |]. split; [lia |].
    split; [discriminate | auto].
  - intros (mid & caps1 & Ha1 & Ha2).
    apply IH1 in Ha1. destruct Ha1 as (w1 & Hr1 & Hp1 & Hd1).
    apply IH2 in Ha2. destruct Ha2 as (w2 & Hr2 & Hp2 & Hd2).
    exists (w1 +:+ w2). rewrite Hr1, Hr2, append_assoc, length_append.
    split; [reflexivity |]. split; [lia |]. exists w1, w2, caps1. auto.
  - intros (caps1 & Ha & ->). apply IH in Ha.
    destruct Ha as (w & Hr & Hp & Hd). exists w.
    split; [exact Hr |]. split; [exact Hp |]. exists caps1.
    split; [exact Hd |].
    replace (pos cur' - pos cur) with (String.length w) by lia.
    now rewrite Hr, take_str_append.
  - intros (_ & -> & ->). exists "". cbn. auto.
  - intros (_ & -> & ->). exists "". cbn. auto.
  - intros (_ & -> & ->). exists "". cbn. auto.
  - intros (_ & -> & ->). exists "". cbn. auto.
Qed.

(** Patterns without anchors. *)
Fixpoint anchor_free (r : regex) : bool :=
  match r with
  | Eps | Lit _ | Cls _ | Star _ | Plus _ => true
  | Seq r1 r2 => anchor_free r1 && anchor_free r2
  | Group _ r' => anchor_free r'
  | BoS | Bol | Eol | EoS => false
  end.

Lemma steps_build (p : ascii -> bool) (w : string) :
  forall (cur : cursor) (s' : string),
    all_in p w = true -> rest cur = w +:+ s' ->
    exists cur',
      steps p cur cur' /\ rest cur' = s'
      /\ pos cur' = pos cur + String.length w.
Proof.
  induction w as [|c w IH]; intros cur s' Hw Hr.
  - exists cur. split; [apply steps_here |]. cbn. auto.
  - cbn [all_in] in Hw. apply andb_true_iff in Hw. destruct Hw as [Hc Hw].
    rewrite append_cons in Hr.
    destruct (IH (Cursor (Some c) (w +:+ s') (S (pos cur))) s' Hw eq_refl)
      as (cur' & Hs & Hr' & Hp).
    exists cur'. split.
    + eapply steps_on; [| exact Hs]. exists c, (w +:+ s'). auto.
    + split; [exact Hr' |]. rewrite Hp. cbn. lia.
Qed.

Lemma step_build (p : ascii -> bool) (c : ascii) (cur : cursor)
    (s' : string) :
  p c = true -> rest cur = String c s' ->
  exists cur',
    step_to p cur cur' /\ rest cur' = s' /\ pos cur' = S (pos cur).
Proof.
  intros Hc Hr. exists (Cursor (Some c) s' (S (pos cur))).
  split; [exists c, s'; auto | auto].
Qed.

(** A text an anchor-free pattern denotes, standing at the cursor, gives
    a way through the pattern. *)
Lemma denotes_accepts (r : regex) :
  anchor_free r = true ->
  forall (w : string) (caps caps' : captures) (cur : cursor) (s' : string),
    denotes r w caps caps' -> rest cur = w +:+ s' ->
    exists cur',
      accepts r cur caps cur' caps' /\ rest cur' = s'
      /\ pos cur' = pos cur + String.length w.
Proof.
  induction r as [|c|p|p|p|r1 IH1 r2 IH2|n r IH| | | |];
    cbn [anchor_free]; try discriminate; intros Hfree w caps caps' cur s';
    cbn [accepts denotes].
  - intros [-> ->] Hr. exists cur. cbn. auto.
  - intros [-> ->] Hr.
    destruct (step_build (Ascii.eqb c) c cur s' (Ascii.eqb_refl c) Hr)
      as (cur' & Hs & Hr' & Hp).
    exists cur'. cbn. repeat split; auto. lia.
  - intros (x & Hx & -> & ->) Hr.
    destruct (step_build p x cur s' Hx Hr) as (cur' & Hs & Hr' & Hp).
    exists cur'. cbn. repeat split; auto. lia.
  - intros [Hw ->] Hr.
    destruct (steps_build p w cur s' Hw Hr) as (cur' & Hs & Hr' & Hp).
    exists cur'. auto.
  - intros (Hne & Hw & ->) Hr. destruct w as [|x w]; [contradiction |].
    cbn [all_in] in Hw. apply andb_true_iff in Hw. destruct Hw as [Hx Hw].
    rewrite append_cons in Hr.
    destruct (step_build p x cur (w +:+ s') Hx Hr) as (mid & Hs & Hr1 & Hp1).
    destruct (steps_build p w mid s' Hw Hr1) as (cur' & Hs' & Hr' & Hp).
    exists cur'. split; [exists mid; auto |]. split; [exact Hr' |].
    rewrite Hp, Hp1. cbn. lia.
  - apply andb_true_iff in Hfree. destruct Hfree as [Hf1 Hf2].
    intros (w1 & w2 & caps1 & -> & Hd1 & Hd2) Hr.
    rewrite append_assoc in Hr.
    destruct (IH1 Hf1 _ _ _ cur (w2 +:+ s') Hd1 Hr)
      as (mid & Ha1 & Hr1 & Hp1).
    destruct (IH2 Hf2 _ _ _ mid s' Hd2 Hr1) as (cur' & Ha2 & Hr' & Hp).
    exists cur'. split; [exists mid, caps1; auto |].
    split; [exact Hr' |]. rewrite Hp, Hp1, length_append. lia.
  - intros (caps1 & Hd & ->) Hr.
    destruct (IH Hfree _ _ _ cur s' Hd Hr) as (cur' & Ha & Hr' & Hp).
    exists cur'. split; [| auto]. exists caps1. split; [exact Ha |].
    replace (pos cur' - pos cur) with (String.length w) by lia.
    now rewrite Hr, take_str_append.
Qed.

(** ** Frame lines *)

Lemma all_in_append (p : ascii -> bool) (a b : string) :
  all_in p (a +:+ b) = all_in p a && all_in p b.
Proof.
  induction a as [|c a IH]; [reflexivity |].
  rewrite append_cons. cbn [all_in]. now rewrite IH, andb_assoc.
Qed.

Lemma all_in_impl (p q : ascii -> bool) (w : string) :
  (forall c, p c = true -> q c = true) ->
  all_in p w = true -> all_in q w = true.
Proof.
  intros Hpq. induction w as [|c w IH]; [reflexivity |].
  cbn [all_in]. intros H. apply andb_true_iff in H. destruct H as [Hc Hw].
  now rewrite (Hpq c Hc), (IH Hw).
Qed.

(** Every character but [x]. *)
Definition other_than (x : ascii) (c : ascii) : bool := negb (Ascii.eqb c x).

Lemma other_than_spec (p : ascii -> bool) (x : ascii) :
  p x = false -> forall c, p c = true -> other_than x c = true.
Proof.
  intros Hx c Hc. unfold other_than.
  destruct (Ascii.eqb_spec c x) as [->|]; [congruence | reflexivity].
Qed.

Lemma split_at_first (x : ascii) (a : string) :
  forall (b a' b' : string),
    all_in (other_than x) a = true -> all_in (other_than x) a' = true ->
    a +:+ String x b = a' +:+ String x b' -> a = a' /\ b = b'.
Proof.
  induction a as [|c a IH]; intros b [|c' a'] b' Ha Ha' H.
  - injection H as <-. auto.
  - rewrite append_cons in H. injection H as <- _.
    cbn in Ha'. unfold other_than in Ha'. now rewrite Ascii.eqb_refl in Ha'.
  - rewrite append_cons in H. injection H as -> _.
    cbn in Ha. unfold other_than in Ha. now rewrite Ascii.eqb_refl in Ha.
  - rewrite !append_cons in H. injection H as <- H.
    cbn [all_in] in Ha, Ha'.
    apply andb_true_iff in Ha. apply andb_true_iff in Ha'.
    destruct (IH b a' b') as [-> ->]; tauto.
Qed.

Lemma split_at_last (x : ascii) (a : string) :
  forall (b a' b' : string),
    all_in (other_than x) b = true -> all_in (other_than x) b' = true ->
    a +:+ String x b = a' +:+ String x b' -> a = a' /\ b = b'.
Proof.
  assert (Hnot : forall u v, all_in (other_than x) (u +:+ String x v) = false).
  { intros u v. rewrite all_in_append. cbn [all_in]. unfold other_than at 2.
    rewrite Ascii.eqb_refl. cbn. apply andb_false_r. }
  induction a as [|c a IH]; intros b [|c' a'] b' Hb Hb' H.
  - injection H as <-. auto.
  - rewrite append_cons in H. injection H as _ ->.
    rewrite Hnot in Hb. discriminate.
  - rewrite append_cons in H. injection H as _ <-.
    rewrite Hnot in Hb'. discriminate.
  - rewrite !append_cons in H. injection H as <- H.
    destruct (IH b a' b' Hb Hb' H) as [-> ->]. auto.
Qed.

(** The text of a stack frame: a tab, [at ], the qualified class, a dot,
    the method, the source file and the line between parentheses. *)
Definition frame_text (qualified method file line : string) : string :=
  HT +:+ "at " +:+ qualified +:+ "." +:+ method +:+ "(" +:+ file +:+ ":"
    +:+ line +:+ ")".

(** [text] is the line of a frame with this class and this line number. *)
Definition is_frame_line (text : string) (frame : string * string) : Prop :=
  exists method file,
    (fst frame <> "" /\ all_in class_char (fst frame) = true)
    /\ (method <> "" /\ all_in is_word method = true)
    /\ (file <> "" /\ all_in class_char file = true)
    /\ numeral (snd frame)
    /\ text = frame_text (fst frame) method file (snd frame).

(** A line has no line feed. *)
Definition lf_free (text : string) : Prop := all_in dot text = true.

Lemma class_char_other (x : ascii) :
  class_char x = false ->
  forall w, all_in class_char w = true -> all_in (other_than x) w = true.
Proof. intros Hx w. apply all_in_impl. now apply other_than_spec. Qed.

Lemma frame_line_unique (text : string) (frame frame' : string * string) :
  is_frame_line text frame -> is_frame_line text frame' -> frame = frame'.
Proof.
  destruct frame as [q n], frame' as [q' n']. cbn [fst snd].
  intros (m & f & [_ Hq] & [_ Hm] & [_ Hf] & [_ Hn] & ->).
  intros (m' & f' & [_ Hq'] & [_ Hm'] & [_ Hf'] & [_ Hn'] & H).
  cbn [fst snd] in *. unfold frame_text in H.
  apply append_inv_head in H. apply append_inv_head in H.
  assert (Hword : forall w, all_in is_word w = true ->
                            all_in class_char w = true).
  { intros w. apply all_in_impl. intros c Hc. unfold class_char.
    now rewrite Hc. }
  assert (Hpre : forall a b, all_in class_char a = true ->
                             all_in is_word b = true ->
                             all_in (other_than "(") (a +:+ "." +:+ b) = true).
  { intros a b Ha Hb. apply (class_char_other "(" eq_refl).
    rewrite !all_in_append, Ha, (Hword b Hb). reflexivity. }
  change (q +:+ "." +:+ m +:+ "(" +:+ f +:+ ":" +:+ n +:+ ")")
    with (q +:+ "." +:+ m +:+ String "(" (f +:+ ":" +:+ n +:+ ")")) in H.
  change (q' +:+ "." +:+ m' +:+ "(" +:+ f' +:+ ":" +:+ n' +:+ ")")
    with (q' +:+ "." +:+ m' +:+ String "(" (f' +:+ ":" +:+ n' +:+ ")")) in H.
  assert (Hassoc : forall a b rest,
             a +:+ "." +:+ b +:+ rest = (a +:+ "." +:+ b) +:+ rest)
    by (intros; now rewrite !append_assoc).
  rewrite (Hassoc q m), (Hassoc q' m') in H.
  apply split_at_first in H; [| now apply Hpre | now apply Hpre].
  destruct H as [Hclass Hrest].
  change (q +:+ "." +:+ m) with (q +:+ String "." m) in Hclass.
  change (q' +:+ "." +:+ m') with (q' +:+ String "." m') in Hclass.
  apply split_at_last in Hclass;
    [| eapply all_in_impl; [apply (other_than_spec is_word "." eq_refl) |];
       assumption ..].
  destruct Hclass as [-> _].
  change (f +:+ ":" +:+ n +:+ ")") with (f +:+ String ":" (n +:+ ")"))
    in Hrest.
  change (f' +:+ ":" +:+ n' +:+ ")") with (f' +:+ String ":" (n' +:+ ")"))
    in Hrest.
  apply split_at_first in Hrest;
    [| now apply (class_char_other ":" eq_refl) ..].
  destruct Hrest as [_ Hline].
  change (n +:+ ")") with (n +:+ String ")" "") in Hline.
  change (n' +:+ ")") with (n' +:+ String ")" "") in Hline.
  apply split_at_first in Hline;
    [| eapply all_in_impl; [apply (other_than_spec is_digit ")" eq_refl) |];
       assumption ..].
  destruct Hline as [-> _]. reflexivity.
Qed.

Lemma frame_line_lf_free (text : string) (frame : string * string) :
  is_frame_line text frame -> lf_free text.
Proof.
  intros (m & f & [_ Hq] & [_ Hm] & [_ Hf] & [_ Hn] & ->).
  unfold lf_free, frame_text. rewrite !all_in_append.
  rewrite (all_in_impl class_char dot _
             (other_than_spec class_char LF eq_refl) Hq).
  rewrite (all_in_impl is_word dot _
             (other_than_spec is_word LF eq_refl) Hm).
  rewrite (all_in_impl class_char dot _
             (other_than_spec class_char LF eq_refl) Hf).
  rewrite (all_in_impl is_digit dot _
             (other_than_spec is_digit LF eq_refl) Hn).
  reflexivity.
Qed.

(** [JAVA_ERROR_LOCATION] between its two anchors. *)
Definition FRAME : regex :=
  Lit TAB +> lit "at "
      +> Group 1 (Plus (fun c => is_word c || one_of "." c))
      +> Lit "." +> Plus is_word +> Lit "("
      +> Plus (fun c => is_word c || one_of "." c)
      +> Lit ":" +> Group 2 (Plus is_digit) +> Lit ")".

Lemma JAVA_ERROR_LOCATION_anchored (k : cont) (cur : cursor)
    (caps : captures) :
  exec JAVA_ERROR_LOCATION k cur caps = exec (Bol +> FRAME +> Eol) k cur caps.
Proof. reflexivity. Qed.

Lemma denotes_lit_intro (t : string) (caps : captures) :
  denotes (lit t) t caps caps.
Proof.
  induction t as [|c t IH]; cbn [lit denotes]; [auto |].
  exists (String c ""), t, caps. auto.
Qed.

Lemma denotes_FRAME_inv (w : string) (caps caps' : captures) :
  denotes FRAME w caps caps' ->
  exists frame,
    is_frame_line w frame
    /\ caps' = (2, snd frame) :: (1, fst frame) :: caps.
Proof.
  unfold FRAME. cbn [denotes].
  intros (w1 & w2 & caps1 & -> & [-> ->] & Hd).
  destruct Hd as (w3 & w4 & caps2 & -> & Hl & Hd).
  apply denotes_lit in Hl. destruct Hl as [-> ->].
  destruct Hd as (q & w5 & caps3 & -> & (caps4 & Hq & ->) & Hd).
  destruct Hq as (Hqne & Hqc & ->).
  destruct Hd as (w6 & w7 & caps5 & -> & [-> ->] & Hd).
  destruct Hd as (m & w8 & caps6 & -> & (Hmne & Hmc & ->) & Hd).
  destruct Hd as (w9 & w10 & caps7 & -> & [-> ->] & Hd).
  destruct Hd as (f & w11 & caps8 & -> & (Hfne & Hfc & ->) & Hd).
  destruct Hd as (w12 & w13 & caps9 & -> & [-> ->] & Hd).
  destruct Hd as (n & w14 & caps10 & -> & (caps11 & Hn & ->) & [-> ->]).
  destruct Hn as (Hnne & Hnd & ->).
  exists (q, n). split; [| reflexivity].
  exists m, f. cbn [fst snd]. unfold numeral. repeat split; auto.
Qed.

Lemma denotes_FRAME_intro (w : string) (frame : string * string)
    (caps : captures) :
  is_frame_line w frame ->
  denotes FRAME w caps ((2, snd frame) :: (1, fst frame) :: caps).
Proof.
  destruct frame as [q n]. cbn [fst snd].
  intros (m & f & [Hqne Hq] & [Hmne Hm] & [Hfne Hf] & [Hnne Hn] & ->).
  unfold FRAME, frame_text. cbn [denotes].
  eexists _, _, _. split; [reflexivity |]. split; [split; reflexivity |].
  eexists _, _, _. split; [reflexivity |].
  split; [apply denotes_lit_intro |].
  eexists _, _, _. split; [reflexivity |].
  split; [eexists; split; [split; [exact Hqne | split; [exact Hq |]] |];
          reflexivity |].
  eexists _, _, _. split; [reflexivity |]. split; [split; reflexivity |].
  eexists _, _, _. split; [reflexivity |].
  split; [split; [exact Hmne | split; [exact Hm | reflexivity]] |].
  eexists _, _, _. split; [reflexivity |]. split; [split; reflexivity |].
  eexists _, _, _. split; [reflexivity |].
  split; [split; [exact Hfne | split; [exact Hf | reflexivity]] |].
  eexists _, _, _. split; [reflexivity |]. split; [split; reflexivity |].
  eexists _, _, _. split; [reflexivity |].
  split; [eexists; split; [split; [exact Hnne | split; [exact Hn |]] |];
          reflexivity |].
  split; reflexivity.
Qed.

(** The text stops here or a line feed follows. *)
Definition ends_line (s : string) : bool :=
  match s with
  | EmptyString => true
  | String c _ => Ascii.eqb c LF
  end.

Definition groups_of (m : Match) : string * string := (group m 1, group m 2).

(** A match of [JAVA_ERROR_LOCATION] starts a line, covers a frame line
    up to the end of the line, and holds its class and line number. *)
Lemma JAVA_match_is_frame_line (cur : cursor) (m : Match) :
  match_at JAVA_ERROR_LOCATION cur = Some m ->
  at_line_start cur = true
  /\ exists w s',
       rest cur = w +:+ s' /\ ends_line s' = true
       /\ is_frame_line w (groups_of m)
       /\ m_end m - m_start m = String.length w.
Proof.
  unfold match_at. rewrite JAVA_ERROR_LOCATION_anchored.
  destruct (exec (Bol +> FRAME +> Eol) (fun cur' caps => Some (cur', caps))
              cur []) as [[cur' caps]|] eqn:H; [| discriminate].
  intros [= <-]. apply exec_accepts in H.
  destruct H as (cur1 & caps1 & Ha & [= E1 E2]). subst cur1 caps1.
  cbn [accepts] in Ha.
  destruct Ha as (mid & caps2 & (Hstart & E1 & E2) & Ha). subst mid caps2.
  destruct Ha as (mid2 & caps3 & Ha & (Hend & E1 & E2)). subst mid2 caps3.
  split; [exact Hstart |]. apply accepts_denotes in Ha.
  destruct Ha as (w & Hr & Hp & Hd). apply denotes_FRAME_inv in Hd.
  destruct Hd as ([q n] & Hline & E). cbn [fst snd] in E.
  exists w, (rest cur'). split; [exact Hr |]. split; [exact Hend |].
  unfold groups_of, group. cbn [m_end m_start m_groups]. rewrite E.
  cbn [lookup_group Nat.eqb]. split; [exact Hline | lia].
Qed.

(** At the start of a frame line [JAVA_ERROR_LOCATION] matches. *)
Lemma JAVA_matches_frame_line (cur : cursor) (w s' : string)
    (frame : string * string) :
  at_line_start cur = true -> rest cur = w +:+ s' -> ends_line s' = true ->
  is_frame_line w frame ->
  match_at JAVA_ERROR_LOCATION cur <> None.
Proof.
  intros Hstart Hr Hend Hline.
  apply (denotes_FRAME_intro _ _ []) in Hline.
  destruct (denotes_accepts FRAME eq_refl _ _ _ cur s' Hline Hr)
    as (cur' & Ha & Hr' & _).
  assert (Hexec : exec JAVA_ERROR_LOCATION
                    (fun cur' caps => Some (cur', caps)) cur [] <> None).
  { rewrite JAVA_ERROR_LOCATION_anchored.
    apply (exec_finds _ _ _ _ cur' [(2, snd frame); (1, fst frame)]);
      [| discriminate].
    cbn [accepts]. exists cur, []. split; [auto |].
    exists cur', [(2, snd frame); (1, fst frame)]. split; [exact Ha |].
    unfold at_line_end. rewrite Hr'. auto. }
  unfold match_at.
  destruct (exec JAVA_ERROR_LOCATION _ cur []) as [[c1 c2]|];
    [discriminate | contradiction].
Qed.

Lemma lf_free_line_unique (w : string) :
  forall (l a b : string),
    lf_free w -> lf_free l -> ends_line a = true -> ends_line b = true ->
    w +:+ a = l +:+ b -> w = l.
Proof.
  unfold lf_free.
  induction w as [|c w IH]; intros [|c' l] a b Hw Hl Ha Hb H.
  - reflexivity.
  - rewrite append_cons, append_empty_l in H. subst a.
    cbn [ends_line] in Ha.
    cbn [all_in] in Hl. apply andb_true_iff in Hl. destruct Hl as [Hc _].
    unfold dot in Hc. rewrite Ha in Hc. discriminate.
  - rewrite append_cons, append_empty_l in H. subst b.
    cbn [ends_line] in Hb.
    cbn [all_in] in Hw. apply andb_true_iff in Hw. destruct Hw as [Hc _].
    unfold dot in Hc. rewrite Hb in Hc. discriminate.
  - rewrite !append_cons in H. injection H as <- H.
    cbn [all_in] in Hw, Hl.
    apply andb_true_iff in Hw. apply andb_true_iff in Hl.
    f_equal. apply (IH l a b); tauto.
Qed.

(** What [JAVA_ERROR_LOCATION] does at the start of a line: it matches a
    frame line whole, with its class and line number, and nothing
    else. *)
Lemma JAVA_at_line_start (cur : cursor) (l s' : string) :
  at_line_start cur = true -> rest cur = l +:+ s' -> lf_free l ->
  ends_line s' = true ->
  (forall frame,
      is_frame_line l frame ->
      exists m,
        match_at JAVA_ERROR_LOCATION cur = Some m
        /\ groups_of m = frame
        /\ m_end m - m_start m = String.length l)
  /\ ((forall frame, ~ is_frame_line l frame) ->
      match_at JAVA_ERROR_LOCATION cur = None).
Proof.
  intros Hstart Hr Hl Hend.
  assert (Hsome : forall m,
             match_at JAVA_ERROR_LOCATION cur = Some m ->
             is_frame_line l (groups_of m)
             /\ m_end m - m_start m = String.length l).
  { intros m Hm. apply JAVA_match_is_frame_line in Hm.
    destruct Hm as (_ & w & s1 & Hr1 & Hend1 & Hline & Hlen).
    assert (w = l) as ->.
    { apply (lf_free_line_unique w l s1 s'); auto;
        [eapply frame_line_lf_free; exact Hline | congruence]. }
    auto. }
  split.
  - intros frame Hline.
    pose proof (JAVA_matches_frame_line cur l s' frame Hstart Hr Hend Hline)
      as Hfound.
    destruct (match_at JAVA_ERROR_LOCATION cur) as [m|]; [| contradiction].
    destruct (Hsome m eq_refl) as [Hline' Hlen].
    exists m. split; [reflexivity |]. split; [| exact Hlen].
    eapply frame_line_unique; eassumption.
  - intros Hnone.
    destruct (match_at JAVA_ERROR_LOCATION cur) as [m|]; [| reflexivity].
    destruct (Hsome m eq_refl) as [Hline _]. exfalso.
    eapply Hnone. exact Hline.
Qed.

Lemma JAVA_off_line_start (pv : option ascii) (s : string) (i : nat) :
  at_line_start (Cursor pv s i) = false ->
  match_at JAVA_ERROR_LOCATION (Cursor pv s i) = None.
Proof.
  intros H. unfold match_at. rewrite JAVA_ERROR_LOCATION_anchored.
  cbn [exec]. now rewrite H.
Qed.

(** ** The lines of a text and their frames *)

(** The text after a first line: every further line behind a line
    feed. *)
Fixpoint more (lines : list string) : string :=
  match lines with
  | [] => EmptyString
  | l :: lines' => String LF (l +:+ more lines')
  end.

(** The text made of the line [first] and of the lines [lines]. *)
Definition text_of (first : string) (lines : list string) : string :=
  first +:+ more lines.

(** The frames of a list of lines, in the order of the lines: a frame
    line gives its class and line number, any other line nothing. *)
Inductive frames_in : list string -> list (string * string) -> Prop :=
| frames_in_nil : frames_in [] []
| frames_in_frame (l : string) (frame : string * string)
    (ls : list string) (frames : list (string * string)) :
    is_frame_line l frame -> frames_in ls frames ->
    frames_in (l :: ls) (frame :: frames)
| frames_in_other (l : string) (ls : list string)
    (frames : list (string * string)) :
    (forall frame, ~ is_frame_line l frame) -> frames_in ls frames ->
    frames_in (l :: ls) frames.

(** Every text is made of lines. *)
Lemma text_has_lines (message : string) :
  exists first lines,
    Forall lf_free (first :: lines) /\ message = text_of first lines.
Proof.
  unfold text_of, lf_free. induction message as [|c message IH].
  - exists "", []. split; [repeat constructor | reflexivity].
  - destruct IH as (first & lines & Hall & ->).
    destruct (Ascii.eqb_spec c LF) as [->|Hc].
    + exists "", (first :: lines). split; [| reflexivity].
      constructor; [reflexivity | exact Hall].
    + exists (String c first), lines. split; [| reflexivity].
      inversion Hall as [|? ? Hfirst Hlines]; subst.
      constructor; [| exact Hlines]. cbn [all_in]. rewrite Hfirst.
      unfold dot. apply Ascii.eqb_neq in Hc. now rewrite Hc.
Qed.

Definition line_start (pv : option ascii) : bool :=
  match pv with
  | None => true
  | Some c => Ascii.eqb c LF
  end.

(** The character before the position, after the text [w]. *)
Fixpoint last_of (pv : option ascii) (w : string) : option ascii :=
  match w with
  | EmptyString => pv
  | String c w' => last_of (Some c) w'
  end.

Lemma last_of_inside (w : string) :
  forall pv, line_start pv = false -> lf_free w ->
             line_start (last_of pv w) = false.
Proof.
  unfold lf_free. induction w as [|c w IH]; intros pv Hpv Hw; [exact Hpv |].
  cbn [all_in] in Hw. apply andb_true_iff in Hw. destruct Hw as [Hc Hw].
  cbn [last_of]. apply IH; [| exact Hw]. cbn [line_start].
  unfold dot in Hc. now destruct (Ascii.eqb c LF).
Qed.

Lemma scan_skip (r : regex) (w : string) :
  forall (tail : string) (pv : option ascii) (i : nat),
    scan r pv (w +:+ tail) i (String.length w)
    = scan r (last_of pv w) tail (i + String.length w) 0.
Proof.
  induction w as [|c w IH]; intros tail pv i.
  - cbn [String.length last_of]. rewrite append_empty_l. f_equal. lia.
  - rewrite append_cons. cbn [String.length scan last_of]. rewrite IH.
    f_equal. lia.
Qed.

(** Inside a line nothing matches. *)
Lemma scan_inside_line (w : string) :
  forall (tail : string) (pv : option ascii) (i : nat),
    line_start pv = false -> lf_free w ->
    scan JAVA_ERROR_LOCATION pv (w +:+ tail) i 0
    = scan JAVA_ERROR_LOCATION (last_of pv w) tail (i + String.length w) 0.
Proof.
  unfold lf_free. induction w as [|c w IH]; intros tail pv i Hpv Hw.
  - cbn [String.length last_of]. rewrite append_empty_l. f_equal. lia.
  - cbn [all_in] in Hw. apply andb_true_iff in Hw. destruct Hw as [Hc Hw].
    rewrite append_cons. cbn [scan].
    rewrite (JAVA_off_line_start pv _ i Hpv).
    cbn [String.length last_of]. rewrite IH; [f_equal; lia | | exact Hw].
    cbn [line_start]. unfold dot in Hc. now destruct (Ascii.eqb c LF).
Qed.

Lemma ends_line_more (lines : list string) : ends_line (more lines) = true.
Proof. destruct lines; reflexivity. Qed.

Lemma frame_line_cons (l : string) (frame : string * string) :
  is_frame_line l frame -> exists l', l = String TAB l'.
Proof.
  intros (m & f & _ & _ & _ & _ & ->). unfold frame_text, HT.
  rewrite append_cons. eauto.
Qed.

Lemma frames_of_lines (lines : list string) :
  (forall pv i frames,
      match_at JAVA_ERROR_LOCATION (Cursor pv (more lines) i) = None ->
      Forall lf_free lines -> frames_in lines frames ->
      map groups_of (scan JAVA_ERROR_LOCATION pv (more lines) i 0) = frames)
  /\ (forall l pv i frames,
         line_start pv = true -> Forall lf_free (l :: lines) ->
         frames_in (l :: lines) frames ->
         map groups_of (scan JAVA_ERROR_LOCATION pv (l +:+ more lines) i 0)
         = frames).
Proof.
  induction lines as [|l2 lines [IHmore IHline]].
  - assert (Hmore : forall pv i frames,
               match_at JAVA_ERROR_LOCATION (Cursor pv (more []) i) = None ->
               Forall lf_free [] -> frames_in [] frames ->
               map groups_of (scan JAVA_ERROR_LOCATION pv (more []) i 0)
               = frames).
    { intros pv i frames Hnone _ Hframes. cbn [more scan] in *.
      rewrite Hnone. inversion Hframes. reflexivity. }
    split; [exact Hmore |].
    intros l pv i frames Hpv Hall Hframes.
    inversion Hall as [|? ? Hl _]; subst.
    destruct (JAVA_at_line_start (Cursor pv (l +:+ more []) i) l (more [])
                Hpv eq_refl Hl eq_refl) as [Hyes Hno].
    inversion Hframes as [|? frame ? frs Hline Hrest|? ? ? Hother Hrest];
      subst.
    + destruct (Hyes frame Hline) as (m & Hm & Hg & Hlen).
      destruct (frame_line_cons _ _ Hline) as [l' ->].
      rewrite append_cons in *. cbn [scan]. rewrite Hm, Hlen.
      cbn [String.length pred map]. rewrite Hg, scan_skip. f_equal.
      apply Hmore; [| constructor | exact Hrest].
      apply JAVA_off_line_start. cbn [at_line_start prev].
      apply (last_of_inside l' (Some TAB) eq_refl).
      unfold lf_free in *. cbn [all_in] in Hl.
      apply andb_true_iff in Hl. tauto.
    + specialize (Hno Hother). destruct l as [|c l'].
      * rewrite append_empty_l in *. now apply Hmore.
      * rewrite append_cons in *. cbn [scan]. rewrite Hno.
        unfold lf_free in Hl. cbn [all_in] in Hl.
        apply andb_true_iff in Hl. destruct Hl as [Hc Hl'].
        assert (Hin : line_start (Some c) = false).
        { cbn [line_start]. unfold dot in Hc.
          now destruct (Ascii.eqb c LF). }
        rewrite (scan_inside_line l' _ _ _ Hin Hl').
        apply Hmore; [| constructor | exact Hrest].
        apply JAVA_off_line_start. cbn [at_line_start prev].
        now apply last_of_inside.
  - assert (Hmore : forall pv i frames,
               match_at JAVA_ERROR_LOCATION
                 (Cursor pv (more (l2 :: lines)) i) = None ->
               Forall lf_free (l2 :: lines) ->
               frames_in (l2 :: lines) frames ->
               map groups_of
                 (scan JAVA_ERROR_LOCATION pv (more (l2 :: lines)) i 0)
               = frames).
    { intros pv i frames Hnone Hall Hframes. cbn [more scan] in *.
      rewrite Hnone. now apply IHline. }
    split; [exact Hmore |].
    intros l pv i frames Hpv Hall Hframes.
    inversion Hall as [|? ? Hl Hall']; subst.
    destruct (JAVA_at_line_start
                (Cursor pv (l +:+ more (l2 :: lines)) i) l
                (more (l2 :: lines)) Hpv eq_refl Hl eq_refl)
      as [Hyes Hno].
    inversion Hframes as [|? frame ? frs Hline Hrest|? ? ? Hother Hrest];
      subst.
    + destruct (Hyes frame Hline) as (m & Hm & Hg & Hlen).
      destruct (frame_line_cons _ _ Hline) as [l' ->].
      rewrite append_cons in *. cbn [scan]. rewrite Hm, Hlen.
      cbn [String.length pred map]. rewrite Hg, scan_skip. f_equal.
      apply Hmore; [| exact Hall' | exact Hrest].
      apply JAVA_off_line_start. cbn [at_line_start prev].
      apply (last_of_inside l' (Some TAB) eq_refl).
      unfold lf_free in *. cbn [all_in] in Hl.
      apply andb_true_iff in Hl. tauto.
    + specialize (Hno Hother). destruct l as [|c l'].
      * rewrite append_empty_l in *. now apply Hmore.
      * rewrite append_cons in *. cbn [scan]. rewrite Hno.
        unfold lf_free in Hl. cbn [all_in] in Hl.
        apply andb_true_iff in Hl. destruct Hl as [Hc Hl'].
        assert (Hin : line_start (Some c) = false).
        { cbn [line_start]. unfold dot in Hc.
          now destruct (Ascii.eqb c LF). }
        rewrite (scan_inside_line l' _ _ _ Hin Hl').
        apply Hmore; [| exact Hall' | exact Hrest].
        apply JAVA_off_line_start. cbn [at_line_start prev].
        now apply last_of_inside.
Qed.

(** [JAVA_ERROR_LOCATION.findall] returns the frames of the lines of the
    text, in the order of the lines. *)
Lemma findall2_frames (first : string) (lines : list string)
    (frames : list (string * string)) :
  Forall lf_free (first :: lines) -> frames_in (first :: lines) frames ->
  findall2 JAVA_ERROR_LOCATION (text_of first lines) = frames.
Proof.
  intros Hall Hframes.
  apply (proj2 (frames_of_lines lines) first None 0 frames eq_refl Hall
           Hframes).
Qed.

(** ** From a class to its source file *)

(** The parts with [sep] between them. *)
Fixpoint join_with (sep : string) (parts : list string) : string :=
  match parts with
  | [] => EmptyString
  | part :: parts' =>
      match parts' with
      | [] => part
      | _ :: _ => part +:+ sep +:+ join_with sep parts'
      end
  end.

Definition no_dot (part : string) : Prop :=
  all_in (other_than ".") part = true.

(** [path] is where the source of the class [qualified] lies: the parts
    of the name between its dots, with separators between them and
    [.java] behind. *)
Definition class_file (qualified path : string) : Prop :=
  exists parts,
    Forall no_dot parts /\ qualified = join_with "." parts
    /\ path = join_with "/" parts +:+ ".java".

Lemma replace_dots_append (a b : string) :
  replace_dots (a +:+ b) = replace_dots a +:+ replace_dots b.
Proof.
  induction a as [|c a IH]; [reflexivity |].
  rewrite append_cons. cbn [replace_dots]. rewrite IH. reflexivity.
Qed.

Lemma replace_dots_no_dot (part : string) :
  no_dot part -> replace_dots part = part.
Proof.
  unfold no_dot. induction part as [|c part IH]; [reflexivity |].
  cbn [all_in replace_dots]. intros H. apply andb_true_iff in H.
  destruct H as [Hc Hpart]. rewrite (IH Hpart). unfold other_than in Hc.
  now destruct (Ascii.eqb c ".").
Qed.

Lemma replace_dots_join (parts : list string) :
  Forall no_dot parts ->
  replace_dots (join_with "." parts) = join_with "/" parts.
Proof.
  induction parts as [|part parts IH]; [reflexivity |].
  intros Hall. inversion Hall as [|? ? Hpart Hparts]; subst.
  cbn [join_with]. destruct parts as [|part' parts'].
  - now apply replace_dots_no_dot.
  - rewrite !replace_dots_append, (replace_dots_no_dot part Hpart).
    rewrite (IH Hparts). reflexivity.
Qed.

Lemma parts_of_class (qualified : string) :
  exists parts, Forall no_dot parts /\ qualified = join_with "." parts.
Proof.
  induction qualified as [|c q (parts & Hall & ->)].
  - exists []. split; [constructor | reflexivity].
  - destruct (Ascii.eqb_spec c ".") as [->|Hc].
    + destruct parts as [|part parts'].
      * exists [""; ""]. split; [repeat constructor | reflexivity].
      * exists ("" :: part :: parts'). split; [| reflexivity].
        constructor; [reflexivity | exact Hall].
    + assert (Hother : other_than "." c = true).
      { unfold other_than. apply Ascii.eqb_neq in Hc. now rewrite Hc. }
      destruct parts as [|part parts'].
      * exists [String c ""]. split; [| reflexivity].
        repeat constructor. unfold no_dot. cbn [all_in].
        now rewrite Hother.
      * inversion Hall as [|? ? Hpart Hparts]; subst.
        exists (String c part :: parts'). split.
        -- constructor; [| exact Hparts]. unfold no_dot in *.
           cbn [all_in]. now rewrite Hother, Hpart.
        -- cbn [join_with]. destruct parts'; reflexivity.
Qed.

(** The path [find_location] builds for a class is the file of the
    class. *)
Lemma class_file_java_source (qualified path : string) :
  class_file qualified path <-> path = java_source qualified.
Proof.
  unfold class_file, java_source. split.
  - intros (parts & Hall & -> & ->). now rewrite replace_dots_join.
  - intros ->. destruct (parts_of_class qualified) as (parts & Hall & ->).
    exists parts. rewrite replace_dots_join by exact Hall. auto.
Qed.

Section JavaFrames.

Variable os_path_exists : string -> bool.

Local Abbreviation find_file' := (find_file os_path_exists).
Local Abbreviation located' := (located os_path_exists).
Local Abbreviation find_location' := (find_location os_path_exists).

(** The frame resolves to [file]: the file of its class is found. *)
Definition frame_resolves (frame : string * string) (file : string) : Prop :=
  exists path,
    class_file (fst frame) path /\ find_file' path = Some file.

Definition frame_skipped (frame : string * string) : Prop :=
  forall file, ~ frame_resolves frame file.

(** [found] is the file and the line of the first frame that resolves,
    every frame before it being skipped. *)
Definition first_resolving (frames : list (string * string))
    (found : string * string) : Prop :=
  exists before frame after,
    frames = before ++ frame :: after
    /\ frame_resolves frame (fst found) /\ snd frame = snd found
    /\ Forall frame_skipped before.

Lemma frame_resolves_find_file (frame : string * string) (file : string) :
  frame_resolves frame file
  <-> find_file' (java_source (fst frame)) = Some file.
Proof.
  unfold frame_resolves. split.
  - intros (path & Hpath & Hfile).
    apply class_file_java_source in Hpath. now subst path.
  - intros H. exists (java_source (fst frame)).
    split; [now apply class_file_java_source | exact H].
Qed.

Lemma frame_skipped_unresolved (frame : string * string) :
  frame_skipped frame <-> unresolved os_path_exists frame.
Proof.
  unfold frame_skipped, unresolved. split.
  - intros H. destruct (find_file' (java_source (fst frame))) as [file|] eqn:E;
      [| reflexivity].
    exfalso. apply (H file). now apply frame_resolves_find_file.
  - intros H file Hres. apply frame_resolves_find_file in Hres. congruence.
Qed.

Lemma Forall_frame_skipped (frames : list (string * string)) :
  Forall frame_skipped frames <-> Forall (unresolved os_path_exists) frames.
Proof.
  induction frames as [|frame frames IH].
  - split; constructor.
  - split; intros H; inversion H; subst; constructor;
      try (now apply frame_skipped_unresolved); now apply IH.
Qed.

Lemma first_resolving_first_frame (frames : list (string * string))
    (found : string * string) :
  first_resolving frames found
  <-> first_frame os_path_exists frames = Some found.
Proof.
  rewrite first_frame_some. unfold first_resolving, first_resolvable. split.
  - intros (before & [q l] & after & -> & Hres & Hl & Hskip).
    cbn [snd] in Hl. subst l. apply frame_resolves_find_file in Hres.
    exists before, q, after. split; [reflexivity |]. split; [exact Hres |].
    now apply Forall_frame_skipped.
  - intros (before & q & after & -> & Hres & Hskip).
    exists before, (q, snd found), after. split; [reflexivity |].
    split; [now apply frame_resolves_find_file |]. split; [reflexivity |].
    now apply Forall_frame_skipped.
Qed.

(** C5.  Take a text by its lines, with no resolvable Lua-style or
    Java-wrapped-Lua match.  The frames [find_location] goes through are
    those of the frame lines of the text, in the order of the lines.
    Each class is looked up at its file, its name with separators for
    dots and [.java] behind; the frames whose file is not found are
    skipped and the first one whose file is found gives the result, with
    its own line.  The result is [None] exactly when every frame is
    skipped. *)
Theorem java_frames_in_order (first : string) (lines : list string)
    (frames : list (string * string)) :
  let message := text_of first lines in
  Forall lf_free (first :: lines) ->
  frames_in (first :: lines) frames ->
  located' (search LUA_ERROR_LOCATION message) = None ->
  located' (search JAVA_LUA_ERROR_LOCATION message) = None ->
  findall2 JAVA_ERROR_LOCATION message = frames
  /\ (forall found,
         find_location' (Some message) = inr (Some found)
         <-> first_resolving frames found)
  /\ (find_location' (Some message) = inr None
      <-> Forall frame_skipped frames).
Proof.
  intros message Hall Hframes Hlua Hwrapped.
  pose proof (findall2_frames first lines frames Hall Hframes) as Hfind.
  fold message in Hfind. split; [exact Hfind |].
  rewrite (find_location_frames_loop os_path_exists message Hlua Hwrapped).
  rewrite Hfind. split.
  - intros found. rewrite first_resolving_first_frame.
    split; [intros [= H]; exact H | intros ->; reflexivity].
  - rewrite Forall_frame_skipped, <- first_frame_none.
    split; [intros [= H]; exact H | intros ->; reflexivity].
Qed.

End JavaFrames.

(** Whether a line is a frame line can be told, so every text has its
    list of frames. *)
Lemma frame_line_decided (l : string) :
  lf_free l ->
  (exists frame, is_frame_line l frame)
  \/ (forall frame, ~ is_frame_line l frame).
Proof.
  intros Hl.
  destruct (match_at JAVA_ERROR_LOCATION (Cursor None l 0)) as [m|] eqn:Hm.
  - left. exists (groups_of m). apply JAVA_match_is_frame_line in Hm.
    destruct Hm as (_ & w & s' & Hr & Hend & Hline & _).
    cbn [rest] in Hr. assert (w = l) as ->; [| exact Hline].
    apply (lf_free_line_unique w l s' ""); auto.
    + eapply frame_line_lf_free. exact Hline.
    + now rewrite append_empty_r.
  - right. intros frame Hline.
    apply (JAVA_matches_frame_line (Cursor None l 0) l "" frame);
      auto. cbn [rest]. now rewrite append_empty_r.
Qed.

Lemma text_has_frames (message : string) :
  exists first lines frames,
    Forall lf_free (first :: lines) /\ frames_in (first :: lines) frames
    /\ message = text_of first lines.
Proof.
  destruct (text_has_lines message) as (first & lines & Hall & ->).
  assert (Hframes : exists frames, frames_in (first :: lines) frames).
  { revert Hall. generalize (first :: lines). intros ls Hall.
    induction Hall as [|l ls Hl Hall [frames IH]].
    - exists []. constructor.
    - destruct (frame_line_decided l Hl) as [[frame Hline]|Hother].
      + exists (frame :: frames). now constructor.
      + exists frames. now constructor. }
  destruct Hframes as [frames Hframes]. exists first, lines, frames. auto.
Qed.

(** *** Three frames behind a first line *)

Definition frame_lines : list string :=
  [frame_text "org.junit.Assert" "fail" "Assert.java" "89";
   frame_text "dan200.Foo" "run" "Foo.java" "7";
   frame_text "dan200.Bar" "go" "Bar.java" "3"].

Example frames_message_lines :
  text_of "java.lang.AssertionError: expected" frame_lines = frames_message.
Proof. reflexivity. Qed.

Lemma java_frames_in_order_witness :
  findall2 JAVA_ERROR_LOCATION
    (text_of "java.lang.AssertionError: expected" frame_lines)
  = [("org.junit.Assert", "89"); ("dan200.Foo", "7"); ("dan200.Bar", "3")]
  /\ (forall found,
         find_location repo
           (Some (text_of "java.lang.AssertionError: expected" frame_lines))
         = inr (Some found)
         <-> first_resolving repo
               [("org.junit.Assert", "89"); ("dan200.Foo", "7");
                ("dan200.Bar", "3")] found)
  /\ (find_location repo
        (Some (text_of "java.lang.AssertionError: expected" frame_lines))
      = inr None
      <-> Forall (frame_skipped repo)
            [("org.junit.Assert", "89"); ("dan200.Foo", "7");
             ("dan200.Bar", "3")]).
Proof.
  apply (java_frames_in_order repo "java.lang.AssertionError: expected"
           frame_lines).
  - repeat constructor.
  - apply frames_in_other.
    + intros frame (m & f & _ & _ & _ & _ & H). discriminate H.
    + apply frames_in_frame;
        [exists "fail", "Assert.java"; unfold numeral; cbn [fst snd];
         repeat split; try discriminate; reflexivity |].
      apply frames_in_frame;
        [exists "run", "Foo.java"; unfold numeral; cbn [fst snd];
         repeat split; try discriminate; reflexivity |].
      apply frames_in_frame;
        [exists "go", "Bar.java"; unfold numeral; cbn [fst snd];
         repeat split; try discriminate; reflexivity |].
      apply frames_in_nil.
  - vm_compute. reflexivity.
  - vm_compute. reflexivity.
Defined.

(** The first frame is a library frame and is skipped; the second gives
    the location. *)
Example first_resolving_frame :
  first_resolving repo
    [("org.junit.Assert", "89"); ("dan200.Foo", "7"); ("dan200.Bar", "3")]
    ("projects/core/src/test/java/dan200/Foo.java", "7").
Proof. apply first_resolving_first_frame. vm_compute. reflexivity. Qed.
